(** * KanbanBoard: progress bars of subtasks (script/boardProgressbar.js)

    A shallow embedding of [boardProgressbar.js] and the properties of its
    progress aggregation: the percentage computation, the two toggle flows,
    the progress-bar update and the write to the remote store.

    - JavaScript numbers are IEEE 754 binary64 values ([spec_float] with
      precision 53 and maximal exponent 1024), so that
      [Math.round((completed / total) * 100)] is computed as the browser
      computes it.
    - JavaScript values are an inductive type; a subtask is an object, that
      is an ordered list of properties.
    - The functions run in a state-and-exception monad over a [World]: the
      heap of task objects, the document, the console and the calls to the
      remote store.  A [Throw] out of an [async] function is the rejection of
      the promise it returns. *)

From Stdlib Require Import ZArith String List Lia.
From Stdlib Require Import Floats.SpecFloat.
From stdpp Require Import gmap strings list.

Set Warnings "-register-all".

Open Scope string_scope.
Open Scope list_scope.
Open Scope Z_scope.

(** ** Numbers *)

Definition number : Type := spec_float.

#[global] Instance number_eq_dec : EqDecision number.
Proof. solve_decision. Defined.

Module Number.

Definition prec : Z := 53.
Definition emax : Z := 1024.

(** The number denoted by an integer literal, or by [length]. *)
Definition of_Z (z : Z) : number := binary_normalize prec emax z 0 false.

Definition zero : number := of_Z 0.
Definition hundred : number := of_Z 100.

(** [x / y] and [x * y] *)
Definition div (x y : number) : number := SFdiv prec emax x y.
Definition mul (x y : number) : number := SFmul prec emax x y.

(** [x === y] and [x > y] on numbers *)
Definition strict_eq (x y : number) : bool := SFeqb x y.
Definition gt (x y : number) : bool := SFltb y x.

End Number.

Module Math.

(** [Math.round(x)]: the integer closest to [x], ties towards +infinity,
    that is [floor(x + 1/2)] computed exactly.  NaN, the infinities and
    the zeros are returned as they are; a result of zero keeps the sign
    of [x]. *)
Definition round (x : number) : number :=
  match x with
  | S754_finite s m e =>
      if 0 <=? e then x
      else
        let n := (2 * cond_Zopp s (Zpos m) + 2 ^ (- e)) / 2 ^ (1 - e) in
        if n =? 0 then S754_zero s else Number.of_Z n
  | _ => x
  end.

End Math.

(** ** Values *)

Inductive value : Type :=
| VUndefined
| VNull
| VBool (b : bool)
| VNum (x : number)
| VStr (s : string)
| VObj (props : list (string * value))
| VArr (items : list value).

(** An object: its own properties, in insertion order. *)
Definition object : Type := list (string * value).

(** [Array.isArray(v)] *)
Definition Array_isArray (v : value) : bool :=
  match v with
  | VArr _ => true
  | _ => false
  end.

(** The truth value of [v] in a condition, under [!] and in [filter]. *)
Definition ToBoolean (v : value) : bool :=
  match v with
  | VUndefined | VNull => false
  | VBool b => b
  | VNum (S754_zero _) | VNum S754_nan => false
  | VNum _ => true
  | VStr EmptyString => false
  | VStr _ => true
  | VObj _ | VArr _ => true
  end.

(** [o[k]] on an object: [undefined] when [o] has no property [k]. *)
Fixpoint obj_get (k : string) (o : object) : value :=
  match o with
  | [] => VUndefined
  | (k', v) :: o' => if decide (k = k') then v else obj_get k o'
  end.

(** [o[k] = v] on an object: overwrites the property where it stands, or
    adds it after the others. *)
Fixpoint obj_set (k : string) (v : value) (o : object) : object :=
  match o with
  | [] => [(k, v)]
  | (k', v') :: o' =>
      if decide (k = k') then (k, v) :: o' else (k', v') :: obj_set k v o'
  end.

(** [a[i]] on an array, for an integer [i]: [None] is [undefined], the
    result out of range. *)
Definition array_get {A : Type} (a : list A) (i : Z) : option A :=
  if 0 <=? i then a !! Z.to_nat i else None.

(** ** Exceptions and results *)

Inductive exn : Type :=
| TypeError
| NetworkError (reason : string).

Inductive Result (A : Type) : Type :=
| Ok (a : A)
| Throw (e : exn).

Arguments Ok {A} a.
Arguments Throw {A} e.

(** [subtask.completed], as the callback of [filter] reads it: a
    TypeError on [undefined] and [null]; primitives and arrays have no
    property of that name. *)
Definition get_completed (v : value) : Result value :=
  match v with
  | VUndefined | VNull => Throw TypeError
  | VObj o => Ok (obj_get "completed" o)
  | VBool _ | VNum _ | VStr _ | VArr _ => Ok VUndefined
  end.

(** [items.filter(subtask => subtask.completed)]: the elements whose
    [completed] is truthy; the exception of the callback, if it throws. *)
Fixpoint filter_completed (items : list value) : Result (list value) :=
  match items with
  | [] => Ok []
  | v :: rest =>
      match get_completed v with
      | Throw e => Throw e
      | Ok c =>
          match filter_completed rest with
          | Throw e => Throw e
          | Ok kept => Ok (if ToBoolean c then v :: kept else kept)
          end
      end
  end.

(** ** The world *)

(** A task object.  [task_subtasks] is [None] when the property is
    [undefined] or [null], and an array of subtask objects otherwise. *)
Record Task : Type := {
  task_id : string;
  task_category : string;
  task_subtasks : option (list object);
  task_extra : object;
}.

(** References to task objects. *)
Definition loc : Type := positive.

(** A template literal with the values of its holes; the conversion of a
    hole to text is the browser's. *)
Inductive part : Type :=
| Lit (s : string)
| Hole (v : value).

Definition template : Type := list part.

(** An argument that a caller may leave out: [None] is [undefined]. *)
Definition arg_value (a : option number) : value :=
  match a with
  | Some x => VNum x
  | None => VUndefined
  end.

(** The elements of a task card that the script touches:
    [.progress-bar-container] with, inside it, [.progress-bar-fill] and
    the first [span]; and [.progress-bar-text]. *)
Record Fill : Type := {
  fill_width : template;
  fill_backgroundColor : string;
}.

Record Container : Type := {
  container_display : string;
  container_fill : option Fill;
  container_counter : option template;
}.

Record Card : Type := {
  card_container : option Container;
  card_text : option template;
}.

(** The document: the card [#task-<taskId>] of each task on the board,
    the [display] of [#taskOverlay] and the [innerHTML] of
    [#overlayDetails], each [None] when the element does not exist.  A
    query is a lookup by task identifier.  That is what [querySelector]
    does with the selector [#task-<taskId> .progress-bar-container] for an
    identifier made of letters, digits, [-] and [_], as the keys of the
    store are ([store_key] below): the selector is valid and selects
    inside the element of that identifier.  For other identifiers the
    syntax of selectors is not modelled (a selector that is not valid
    makes [querySelector] throw, a comma makes a list of selectors).
    The markup of the page is not part of this script: a card keeps the
    container and the text element apart. *)
Record Document : Type := {
  cards : gmap string Card;
  overlay_display : option string;
  overlayDetails : option string;
}.

Inductive level : Type := Warn | Error.

Record LogEntry : Type := {
  log_level : level;
  log_message : template;
  log_error : option exn;
}.

(** The request of [fetch(url, {method, headers, body})]; [req_body] is
    the value given to [JSON.stringify]. *)
Record Request : Type := {
  req_url : string;
  req_method : string;
  req_headers : list (string * string);
  req_body : value;
}.

(** A call to the remote store. *)
Inductive Call : Type :=
| FetchCall (r : Request)
| SyncCall (taskId : string) (subtasks : value) (category : string).

(** The response of the store to a request: its HTTP status. *)
Record Response : Type := {
  res_status : Z;
}.

(** [response.ok]: the status is in the range 200-299. *)
Definition res_ok (response : Response) : bool :=
  (200 <=? res_status response) && (res_status response <=? 299).

(** What becomes of the promise of a call to the store: it is rejected
    with an error when the request could not be made (a network failure),
    and fulfilled with the response otherwise, also when the status of the
    response says that the store has refused the request. *)
Inductive Outcome : Type :=
| Rejected (error : exn)
| Fulfilled (response : Response).

Record World : Type := {
  heap : gmap loc Task;
  document : Document;
  console : list LogEntry;
  network : list Call;
}.

Definition with_heap (h : gmap loc Task) (w : World) : World :=
  {| heap := h; document := document w; console := console w;
     network := network w |}.

Definition with_document (d : Document) (w : World) : World :=
  {| heap := heap w; document := d; console := console w;
     network := network w |}.

Definition with_console (c : list LogEntry) (w : World) : World :=
  {| heap := heap w; document := document w; console := c;
     network := network w |}.

Definition with_network (n : list Call) (w : World) : World :=
  {| heap := heap w; document := document w; console := console w;
     network := n |}.

Definition with_cards (c : gmap string Card) (d : Document) : Document :=
  {| cards := c; overlay_display := overlay_display d;
     overlayDetails := overlayDetails d |}.

(** ** The monad of effects *)

Definition M (A : Type) : Type := World -> Result A * World.

Definition ret {A : Type} (a : A) : M A := fun w => (Ok a, w).

Definition throw {A : Type} (e : exn) : M A := fun w => (Throw e, w).

Definition bind {A B : Type} (m : M A) (f : A -> M B) : M B :=
  fun w =>
    match m w with
    | (Ok a, w') => f a w'
    | (Throw e, w') => (Throw e, w')
    end.

(** [try { m } catch (error) { h error }] *)
Definition try_catch {A : Type} (m : M A) (h : exn -> M A) : M A :=
  fun w =>
    match m w with
    | (Ok a, w') => (Ok a, w')
    | (Throw e, w') => h e w'
    end.

(** A computation without effects that may throw. *)
Definition lift {A : Type} (r : Result A) : M A := fun w => (r, w).

Declare Scope js_scope.
Delimit Scope js_scope with js.
Notation "'let*' x ':=' m 'in' k" := (bind m (fun x => k))
  (at level 10, x pattern, m at level 100, k at level 200) : js_scope.
Notation "m ';;' k" := (bind m (fun _ => k))
  (at level 100, k at level 200, right associativity) : js_scope.

Definition console_warn (msg : template) : M unit :=
  fun w =>
    (Ok tt, with_console
              (console w ++
               [{| log_level := Warn; log_message := msg; log_error := None |}]) w).

Definition console_error (msg : template) (error : option exn) : M unit :=
  fun w =>
    (Ok tt, with_console
              (console w ++
               [{| log_level := Error; log_message := msg; log_error := error |}]) w).

(** [task.p] for a reference [task]: a TypeError when [task] is no object. *)
Definition read_task (task : loc) : M Task :=
  fun w =>
    match heap w !! task with
    | Some t => (Ok t, w)
    | None => (Throw TypeError, w)
    end.

(** The array [subtasks] becomes the value of [task.subtasks]: the effect
    on the task of an assignment to an element of its array. *)
Definition with_subtasks (subtasks : list object) (t : Task) : Task :=
  {| task_id := task_id t; task_category := task_category t;
     task_subtasks := Some subtasks; task_extra := task_extra t |}.

Definition write_subtasks (task : loc) (subtasks : list object) : M unit :=
  fun w =>
    match heap w !! task with
    | Some t => (Ok tt, with_heap (<[task := with_subtasks subtasks t]> (heap w)) w)
    | None => (Throw TypeError, w)
    end.

(** [!subtask.completed] *)
Definition not_completed (subtask : object) : value :=
  VBool (negb (ToBoolean (obj_get "completed" subtask))).

Definition get_document : M Document := fun w => (Ok (document w), w).

Definition put_document (d : Document) : M unit :=
  fun w => (Ok tt, with_document d w).

(** ** boardProgressbar.js *)

Section BoardProgressbar.

(** The globals and collaborators that the script uses and other scripts
    of the page define. *)

(** [TASK_URL], the base URL of the remote store. *)
Variable TASK_URL : string.

(** [findTaskInData(taskId)]: the task object of that identifier, or
    nothing. *)
Variable findTaskInData : string -> option loc.

(** [getBoardOverlayTemplate(category, task)]: the markup of the detail
    view of a task. *)
Variable getBoardOverlayTemplate : string -> Task -> string.

(** The remote store: given the calls issued so far and a new call, what
    becomes of the promise of the new call. *)
Variable store_outcome : list Call -> Call -> Outcome.

Local Open Scope js_scope.

(** [await fetch(url, init)]: the request is sent; the promise is
    rejected with an error, or fulfilled with the response of the store,
    whatever its status. *)
Definition fetch (r : Request) : M Response :=
  fun w =>
    let w' := with_network (network w ++ [FetchCall r]) w in
    match store_outcome (network w) (FetchCall r) with
    | Rejected e => (Throw e, w')
    | Fulfilled response => (Ok response, w')
    end.

(** Modelled from the spec: [syncSubtasksWithFirebase(taskId, subtasks,
    category)] is not in this script.  It is the operation
    [persist(taskId, subtasks, category)]: one call to the external
    store, keyed by category and task identifier, that replaces the whole
    subtask sequence of the task; a failure (a rejected call, or a
    response that is not [ok]) is reported to the console, nothing is
    thrown and nothing in memory is rolled back. *)
Definition syncSubtasksWithFirebase
    (taskId : string) (subtasks : list object) (category : string) : M unit :=
  fun w =>
    let c := SyncCall taskId (VArr (map VObj subtasks)) category in
    let w' := with_network (network w ++ [c]) w in
    match store_outcome (network w) c with
    | Rejected e => console_error [] (Some e) w'
    | Fulfilled response =>
        if res_ok response then (Ok tt, w') else console_error [] None w'
    end.

(** Lines 6-15. *)
Definition calculateProgress (subtasks : value) : M number :=
  match subtasks with
  | VArr items =>
      let total := Number.of_Z (Z.of_nat (length items)) in
      let* kept := lift (filter_completed items) in
      let completed := Number.of_Z (Z.of_nat (length kept)) in
      ret (if Number.strict_eq total Number.zero then Number.zero
           else Math.round (Number.mul (Number.div completed total) Number.hundred))
  | _ =>
      console_warn [Lit "Invalid subtasks array. Returning 0 progress."];;
      ret Number.zero
  end.

(** Lines 23-36: the first declaration of [updateProgressBar].  The
    declaration of lines 89-110 has the same name and comes later in
    the same script, so it replaces this one before any call runs. *)
Definition updateProgressBar_shadowed
    (taskId : string) (progressPercentage : number) : M unit :=
  let* d := get_document in
  match cards d !! taskId with
  | Some {| card_container := Some c; card_text := text |} =>
      match container_fill c with
      | Some _ =>
          let fill' :=
            {| fill_width := [Hole (VNum progressPercentage); Lit "%"];
               fill_backgroundColor :=
                 if Number.strict_eq progressPercentage Number.zero
                 then "lightgray" else "blue" |} in
          let c' :=
            {| container_display := container_display c;
               container_fill := Some fill';
               container_counter := container_counter c |} in
          let text' :=
            match text with
            | Some _ => Some [Hole (VNum progressPercentage); Lit "%"]
            | None => None
            end in
          put_document
            (with_cards
               (<[taskId := {| card_container := Some c'; card_text := text' |}]>
                  (cards d)) d)
      | None =>
          console_warn
            [Lit "Progress bar for Task ID "; Hole (VStr taskId); Lit " not found."]
      end
  | _ =>
      console_warn
        [Lit "Progress bar for Task ID "; Hole (VStr taskId); Lit " not found."]
  end.

(** [total > 0] for an argument that may be left out: [undefined > 0]
    is false. *)
Definition gt_zero (total : option number) : bool :=
  match total with
  | Some x => Number.gt x Number.zero
  | None => false
  end.

(** Lines 89-110: the declaration of [updateProgressBar] in force. *)
Definition updateProgressBar
    (taskId : string) (progressPercentage : number)
    (completed total : option number) : M unit :=
  let* d := get_document in
  match cards d !! taskId with
  | Some {| card_container := Some c; card_text := text |} =>
      if gt_zero total then
        let fill' :=
          match container_fill c with
          | Some _ =>
              Some {| fill_width := [Hole (VNum progressPercentage); Lit "%"];
                      fill_backgroundColor :=
                        if Number.strict_eq progressPercentage Number.zero
                        then "lightgray" else "blue" |}
          | None => None
          end in
        let counter' :=
          match container_counter c with
          | Some _ =>
              Some [Hole (arg_value completed); Lit "/";
                    Hole (arg_value total); Lit " Subtasks"]
          | None => None
          end in
        let c' :=
          {| container_display := "block";
             container_fill := fill';
             container_counter := counter' |} in
        put_document
          (with_cards
             (<[taskId := {| card_container := Some c'; card_text := text |}]>
                (cards d)) d)
      else
        put_document
          (with_cards
             (<[taskId := {| card_container := None; card_text := text |}]>
                (cards d)) d)
  | _ => ret tt
  end.

(** Lines 117-125. *)
Definition updateOverlayIfVisible (category : string) (task : loc) : M unit :=
  let* d := get_document in
  match overlay_display d with
  | Some display =>
      if decide (display = "block") then
        match overlayDetails d with
        | Some _ =>
            let* t := read_task task in
            put_document
              {| cards := cards d;
                 overlay_display := overlay_display d;
                 overlayDetails := Some (getBoardOverlayTemplate category t) |}
        | None => ret tt
        end
      else ret tt
  | None => ret tt
  end.

(** Lines 77-80. *)
Definition progressBarfilling
    (taskId category : string) (progressPercentage completed total : number)
    (task : loc) : M unit :=
  updateProgressBar taskId progressPercentage (Some completed) (Some total);;
  updateOverlayIfVisible category task.

(** Lines 44-65.  The function is [async]: [Throw] is the rejection of
    the promise that the caller receives.  Nothing else runs between the
    request and its outcome.  The response of [fetch] is not bound to a
    name (line 51): its status is never read. *)
Definition toggleSubtaskCompletion (taskId : string) (subtaskIndex : Z) : M unit :=
  fun w =>
    match findTaskInData taskId with
    | None => (Ok tt, w)
    | Some task =>
        match heap w !! task with
        | None => (Ok tt, w)
        | Some t =>
            match task_subtasks t with
            | None => (Ok tt, w)
            | Some subtasks =>
                match array_get subtasks subtaskIndex with
                | None => (Throw TypeError, w)
                | Some subtask =>
                    let subtasks' :=
                      <[Z.to_nat subtaskIndex :=
                          obj_set "completed" (not_completed subtask) subtask]>
                        subtasks in
                    (write_subtasks task subtasks';;
                     try_catch
                       (fetch
                          {| req_url :=
                               TASK_URL +:+ "/" +:+ task_category t +:+ "/" +:+ taskId
                                 +:+ "/subtasks.json";
                             req_method := "PUT";
                             req_headers := [("Content-Type", "application/json")];
                             req_body := VArr (map VObj subtasks') |};;
                        let* kept := lift (filter_completed (map VObj subtasks')) in
                        let completed := Number.of_Z (Z.of_nat (length kept)) in
                        let total := Number.of_Z (Z.of_nat (length subtasks')) in
                        let progressPercentage :=
                          if Number.strict_eq total Number.zero then Number.zero
                          else Math.round
                                 (Number.mul (Number.div completed total)
                                    Number.hundred) in
                        progressBarfilling taskId (task_category t)
                          progressPercentage completed total task)
                       (fun error =>
                          console_error
                            [Lit "Failed to save updated subtasks for Task ID ";
                             Hole (VStr taskId); Lit ":"]
                            (Some error))) w
                end
            end
        end
    end.

(** Lines 133-136.  There is no test of the argument: [subtasks.filter]
    on a value that is no array is a TypeError. *)
Definition calculateProgressPercentage (subtasks : value) : M number :=
  match subtasks with
  | VArr items =>
      let* kept := lift (filter_completed items) in
      let completed := Number.of_Z (Z.of_nat (length kept)) in
      ret (if Number.strict_eq (Number.of_Z (Z.of_nat (length items))) Number.zero
           then Number.zero
           else Math.round
                  (Number.mul
                     (Number.div completed (Number.of_Z (Z.of_nat (length items))))
                     Number.hundred))
  | _ => throw TypeError
  end.

(** Lines 161-165.  [updateProgressBar] is called with two arguments:
    [completed] and [total] are [undefined] in the declaration in
    force. *)
Definition updateSubtaskProgress
    (taskId : string) (subtasks : list object) (category : string) : M unit :=
  let* progress := calculateProgress (VArr (map VObj subtasks)) in
  updateProgressBar taskId progress None None;;
  syncSubtasksWithFirebase taskId subtasks category.

(** Lines 144-152.  [task] is a reference: [subtasks] is the array of
    the task itself whenever it has an element. *)
Definition updateSubtaskState (task : loc) (subtaskIndex : Z) : M unit :=
  let* t := read_task task in
  let subtasks := default [] (task_subtasks t) in
  match array_get subtasks subtaskIndex with
  | None =>
      console_error
        [Lit "Subtask with index "; Hole (VNum (Number.of_Z subtaskIndex));
         Lit " not found."]
        None
  | Some subtask =>
      let subtasks' :=
        <[Z.to_nat subtaskIndex :=
            obj_set "completed" (not_completed subtask) subtask]> subtasks in
      write_subtasks task subtasks';;
      updateSubtaskProgress (task_id t) subtasks' (task_category t)
  end.

End BoardProgressbar.

(** ** The percentage of the specification *)

(** [round(100 * completed / total)] with halves rounded up, on exact
    integers: [floor(100 * completed / total + 1/2)], and 0 for no
    subtask. *)
Definition round_half_up_percentage (completed total : Z) : Z :=
  if total =? 0 then 0 else (200 * completed + total) / (2 * total).

(** The number of subtasks of [subtasks] whose [completed] is truthy. *)
Definition count_completed (subtasks : list object) : Z :=
  Z.of_nat (length (filter (fun o => ToBoolean (obj_get "completed" o) = true) subtasks)).

(** ** Vocabulary of the properties *)

(** [n] subtasks [{completed: b}]. *)
Definition subtasks_of (n : nat) (b : bool) : list object :=
  replicate n [("completed", VBool b)].

(** The percentage that both functions compute from the two counts. *)
Definition computed_percentage (completed total : Z) : number :=
  if Number.strict_eq (Number.of_Z total) Number.zero then Number.zero
  else Math.round
         (Number.mul (Number.div (Number.of_Z completed) (Number.of_Z total))
            Number.hundred).

(** The computed percentage is the percentage of the specification for
    every [completed <= total] with [total <= bound]. *)
Definition agree_up_to (bound : nat) : bool :=
  forallb
    (fun t =>
       forallb
         (fun c =>
            bool_decide
              (computed_percentage (Z.of_nat c) (Z.of_nat t)
               = Number.of_Z (round_half_up_percentage (Z.of_nat c) (Z.of_nat t))))
         (seq 0 (S t)))
    (seq 0 (S bound)).

(** The computed percentage is an integer of [0, 100], the percentage of
    the specification or one less, for every [completed <= total] with
    [total <= bound]. *)
Definition within_one_up_to (bound : nat) : bool :=
  forallb
    (fun t =>
       forallb
         (fun c =>
            let r := round_half_up_percentage (Z.of_nat c) (Z.of_nat t) in
            let x := computed_percentage (Z.of_nat c) (Z.of_nat t) in
            bool_decide (x = Number.of_Z r)
            || (bool_decide (x = Number.of_Z (r - 1)) && (1 <=? r)))
         (seq 0 (S t)))
    (seq 0 (S bound)).

(** The invariant of a right shift: the mantissa is at most [K], and
    below [K] when bits have been lost. *)
Definition shr_below (mrs : shr_record) (K : Z) : Prop :=
  0 <= shr_m mrs <= K
  /\ (shr_r mrs || shr_s mrs = true -> shr_m mrs < K).

(** The value of a number is at most the integer [B]: it is [+0], or
    positive and finite with a negative exponent and a mantissa of at most
    [B * 2 ^ (- e)]. *)
Definition at_most (B : Z) (x : number) : Prop :=
  match x with
  | S754_zero false => True
  | S754_finite false m e => e < 0 /\ Zpos m <= B * 2 ^ (- e)
  | _ => False
  end.

(** The subtask array after [subtasks[i].completed = !subtasks[i].completed]. *)
Definition toggle_at (i : Z) (subtasks : list object) : list object :=
  match array_get subtasks i with
  | Some subtask =>
      <[Z.to_nat i := obj_set "completed" (not_completed subtask) subtask]> subtasks
  | None => subtasks
  end.

(** The request that [toggleSubtaskCompletion] sends for a task. *)
Definition subtasks_request
    (TASK_URL taskId category : string) (subtasks : list object) : Request :=
  {| req_url := TASK_URL +:+ "/" +:+ category +:+ "/" +:+ taskId +:+ "/subtasks.json";
     req_method := "PUT";
     req_headers := [("Content-Type", "application/json")];
     req_body := VArr (map VObj subtasks) |}.

Definition failed_to_save (taskId : string) (error : exn) : LogEntry :=
  {| log_level := Error;
     log_message :=
       [Lit "Failed to save updated subtasks for Task ID ";
        Hole (VStr taskId); Lit ":"];
     log_error := Some error |}.

Definition subtask_not_found (subtaskIndex : Z) : LogEntry :=
  {| log_level := Error;
     log_message :=
       [Lit "Subtask with index "; Hole (VNum (Number.of_Z subtaskIndex));
        Lit " not found."];
     log_error := None |}.


(** A document without any element of the board, and a world with
    nothing in it. *)
Definition empty_document : Document :=
  {| cards := ∅; overlay_display := None; overlayDetails := None |}.

Definition empty_world : World :=
  {| heap := ∅; document := empty_document; console := []; network := [] |}.

(** A world whose only task is [t], at the reference [task]. *)
Definition one_task_world (task : loc) (t : Task) : World :=
  {| heap := {[task := t]}; document := empty_document; console := [];
     network := [] |}.

Definition sample_task (subtasks : list object) : Task :=
  {| task_id := "t1"; task_category := "todo";
     task_subtasks := Some subtasks; task_extra := [] |}.

(** Collaborators for examples: every identifier finds the task at
    reference 1, the detail view is empty, and the store accepts every
    call (status 200), cannot be reached, or refuses every call (status
    401, the answer of the store to a write that is not permitted). *)
Definition sample_url : string := "https://store.example/tasks".
Definition find_first : string -> option loc := fun _ => Some 1%positive.
Definition no_markup : string -> Task -> string := fun _ _ => "".
Definition store_up : list Call -> Call -> Outcome :=
  fun _ _ => Fulfilled {| res_status := 200 |}.
Definition store_down : list Call -> Call -> Outcome :=
  fun _ _ => Rejected (NetworkError "Failed to fetch").
Definition store_refusing : list Call -> Call -> Outcome :=
  fun _ _ => Fulfilled {| res_status := 401 |}.

(** A write to the store has failed: the promise is rejected, or the
    response is not [ok]. *)
Definition write_failed (o : Outcome) : bool :=
  match o with
  | Rejected _ => true
  | Fulfilled response => negb (res_ok response)
  end.



(** A board with one task of two subtasks, none completed. *)
Definition two_open : World :=
  one_task_world 1%positive (sample_task (subtasks_of 2 false)).

(** What a toggle of index [i] may change in a subtask array: nothing but
    the [completed] property of the element [i], which is negated. *)
Definition flipped_at (i : nat) (subtasks subtasks' : list object) : Prop :=
  length subtasks' = length subtasks
  /\ (forall j, j <> i -> subtasks' !! j = subtasks !! j)
  /\ (exists s s',
        subtasks !! i = Some s /\ subtasks' !! i = Some s'
        /\ obj_get "completed" s' = VBool (negb (ToBoolean (obj_get "completed" s)))
        /\ forall k, k <> "completed" -> obj_get k s' = obj_get k s).

(** What a toggle of index [i] of the task [task] may change in the heap:
    nothing but the subtask array of that task, as [flipped_at] says. *)
Definition toggle_frame (task : loc) (i : nat) (w w' : World) : Prop :=
  (forall other, other <> task -> heap w' !! other = heap w !! other)
  /\ exists t t' subtasks subtasks',
       heap w !! task = Some t /\ heap w' !! task = Some t'
       /\ task_id t' = task_id t
       /\ task_category t' = task_category t
       /\ task_extra t' = task_extra t
       /\ task_subtasks t = Some subtasks
       /\ task_subtasks t' = Some subtasks'
       /\ flipped_at i subtasks subtasks'.


(** The indicator of a task as the claim on [applyProgress] wants it
    after a call: the container is displayed, its fill has the width
    [percentage%] and its counter reads [completed/total Subtasks]. *)
Definition indicator_shown
    (taskId : string) (percentage : number) (completed total : option number)
    (w : World) : Prop :=
  exists card c f,
    cards (document w) !! taskId = Some card
    /\ card_container card = Some c
    /\ container_display c = "block"
    /\ container_fill c = Some f
    /\ fill_width f = [Hole (VNum percentage); Lit "%"]
    /\ container_counter c
       = Some [Hole (arg_value completed); Lit "/"; Hole (arg_value total);
               Lit " Subtasks"].

(** The container of the progress bar of a task, if the document has
    one. *)
Definition container_of (taskId : string) (w : World) : option Container :=
  cards (document w) !! taskId ≫= card_container.

(** The container that [updateProgressBar] leaves for a positive total. *)
Definition shown_container
    (percentage : number) (completed total : option number) (c : Container)
    : Container :=
  {| container_display := "block";
     container_fill :=
       (fun _ =>
          {| fill_width := [Hole (VNum percentage); Lit "%"];
             fill_backgroundColor :=
               if Number.strict_eq percentage Number.zero then "lightgray"
               else "blue" |}) <$> container_fill c;
     container_counter :=
       (fun _ =>
          [Hole (arg_value completed); Lit "/"; Hole (arg_value total);
           Lit " Subtasks"]) <$> container_counter c |}.

(** A hidden container with a fill and a counter, and a world put on a
    board whose only card, of the task [t1], has that container. *)
Definition sample_container : Container :=
  {| container_display := "none";
     container_fill := Some {| fill_width := []; fill_backgroundColor := "" |};
     container_counter := Some [] |}.

Definition on_sample_board (w : World) : World :=
  with_document
    {| cards := {["t1" := {| card_container := Some sample_container;
                             card_text := None |}]};
       overlay_display := Some "block";
       overlayDetails := Some "" |}
    w.

(** The detail view is open: [#taskOverlay] is displayed as a block and
    [#overlayDetails] exists. *)
Definition overlay_open (d : Document) : bool :=
  match overlay_display d, overlayDetails d with
  | Some display, Some _ => bool_decide (display = "block")
  | _, _ => false
  end.

Definition progress_bar_not_found (taskId : string) : LogEntry :=
  {| log_level := Warn;
     log_message :=
       [Lit "Progress bar for Task ID "; Hole (VStr taskId); Lit " not found."];
     log_error := None |}.

(** [null] or [undefined]: the values whose properties cannot be read. *)
Definition nullish (v : value) : bool :=
  match v with
  | VUndefined | VNull => true
  | _ => false
  end.

(** Whether [completed] of an element can be read and is truthy. *)
Definition completed_truthy (v : value) : bool :=
  match get_completed v with
  | Ok c => ToBoolean c
  | Throw _ => false
  end.

(** The number of elements of an array whose [completed] is truthy;
    primitives and arrays have none. *)
Definition count_truthy (items : list value) : Z :=
  Z.of_nat (length (filter (fun v => completed_truthy v = true) items)).

(** ** Properties *)

(** *** Objects and arrays *)

Lemma obj_get_set_eq (k : string) (v : value) (o : object) :
  obj_get k (obj_set k v o) = v.
Proof.
  induction o as [|[k' v'] o IH]; cbn.
  - destruct (decide (k = k)); congruence.
  - destruct (decide (k = k')) as [->|Hne]; cbn.
    + destruct (decide (k' = k')); congruence.
    + destruct (decide (k = k')); [congruence|exact IH].
Qed.

Lemma obj_get_set_ne (k k' : string) (v : value) (o : object) :
  k' <> k -> obj_get k' (obj_set k v o) = obj_get k' o.
Proof.
  intros Hne. induction o as [|[k0 v0] o IH]; cbn.
  - destruct (decide (k' = k)); congruence.
  - destruct (decide (k = k0)) as [->|Hk]; cbn.
    + destruct (decide (k' = k0)); congruence.
    + destruct (decide (k' = k0)); [reflexivity|exact IH].
Qed.

Lemma obj_set_set (k : string) (v v' : value) (o : object) :
  obj_set k v (obj_set k v' o) = obj_set k v o.
Proof.
  induction o as [|[k0 v0] o IH]; cbn.
  - destruct (decide (k = k)); congruence.
  - destruct (decide (k = k0)) as [->|Hk]; cbn.
    + destruct (decide (k0 = k0)); congruence.
    + destruct (decide (k = k0)); [congruence|]. rewrite IH. reflexivity.
Qed.

(** Writing to a property the boolean that it holds changes nothing. *)
Lemma obj_set_get_bool (k : string) (b : bool) (o : object) :
  obj_get k o = VBool b -> obj_set k (VBool b) o = o.
Proof.
  induction o as [|[k0 v0] o IH]; cbn; [discriminate|].
  destruct (decide (k = k0)) as [->|Hk]; intros H.
  - rewrite H. reflexivity.
  - rewrite IH by exact H. reflexivity.
Qed.

Lemma array_get_Some {A : Type} (a : list A) (i : Z) (x : A) :
  array_get a i = Some x <-> 0 <= i /\ a !! Z.to_nat i = Some x.
Proof.
  unfold array_get. destruct (0 <=? i) eqn:E.
  - apply Z.leb_le in E. tauto.
  - apply Z.leb_gt in E. split; [discriminate|lia].
Qed.

Lemma array_get_nil {A : Type} (i : Z) : array_get (@nil A) i = None.
Proof. unfold array_get. destruct (0 <=? i); [apply lookup_nil|reflexivity]. Qed.

Lemma toggle_at_flipped (i : Z) (subtasks : list object) (subtask : object) :
  array_get subtasks i = Some subtask ->
  flipped_at (Z.to_nat i) subtasks (toggle_at i subtasks).
Proof.
  intros Hget. unfold toggle_at. rewrite Hget.
  apply array_get_Some in Hget as [_ Hget].
  split; [apply length_insert|]. split.
  - intros j Hj. apply list_lookup_insert_ne. congruence.
  - exists subtask, (obj_set "completed" (not_completed subtask) subtask).
    split; [exact Hget|]. split.
    + apply list_lookup_insert_eq. eapply lookup_lt_Some, Hget.
    + split; [apply obj_get_set_eq|].
      intros k Hk. apply obj_get_set_ne, Hk.
Qed.

(** Two toggles of the same index give the array back when [completed]
    holds a boolean. *)
Lemma toggle_at_involutive
    (i : Z) (subtasks : list object) (subtask : object) (b : bool) :
  array_get subtasks i = Some subtask ->
  obj_get "completed" subtask = VBool b ->
  toggle_at i (toggle_at i subtasks) = subtasks.
Proof.
  intros Hget Hb.
  assert (Hi : array_get (toggle_at i subtasks) i
               = Some (obj_set "completed" (VBool (negb b)) subtask)).
  { unfold toggle_at at 1. rewrite Hget.
    apply array_get_Some in Hget as [Hpos Hget].
    apply array_get_Some. split; [exact Hpos|].
    unfold not_completed. rewrite Hb. cbn [ToBoolean].
    apply list_lookup_insert_eq. eapply lookup_lt_Some, Hget. }
  unfold toggle_at at 1. rewrite Hi.
  unfold toggle_at. rewrite Hget.
  apply array_get_Some in Hget as [_ Hget].
  unfold not_completed. rewrite obj_get_set_eq, Hb. cbn [ToBoolean].
  rewrite Bool.negb_involutive, obj_set_set, list_insert_insert_eq.
  rewrite (obj_set_get_bool _ _ _ Hb).
  apply list_insert_id, Hget.
Qed.

Lemma with_subtasks_id (t : Task) (subtasks : list object) :
  task_subtasks t = Some subtasks -> with_subtasks subtasks t = t.
Proof. destruct t; cbn; intros ->; reflexivity. Qed.

Lemma with_subtasks_twice (t : Task) (a b : list object) :
  with_subtasks a (with_subtasks b t) = with_subtasks a t.
Proof. reflexivity. Qed.

(** *** The percentage *)

Lemma filter_completed_objects (subtasks : list object) :
  filter_completed (map VObj subtasks)
  = Ok (map VObj
          (filter (fun o => ToBoolean (obj_get "completed" o) = true) subtasks)).
Proof.
  induction subtasks as [|o rest IH]; [reflexivity|].
  cbn [map filter_completed get_completed]. rewrite IH.
  rewrite filter_cons.
  destruct (ToBoolean (obj_get "completed" o)) eqn:Hc;
    destruct (decide _) as [H|H]; try reflexivity; congruence.
Qed.

Lemma calculateProgress_counts (subtasks : list object) (w : World) :
  calculateProgress (VArr (map VObj subtasks)) w
  = (Ok (computed_percentage (count_completed subtasks) (Z.of_nat (length subtasks))), w).
Proof.
  unfold calculateProgress, bind, lift, ret.
  rewrite filter_completed_objects, !length_map. reflexivity.
Qed.

(** **** Double precision: the result is an integer between 0 and 100 *)

Lemma digits2_pos_size (p : positive) : digits2_pos p = Pos.size p.
Proof. induction p; cbn; congruence. Qed.

Lemma digits2_pos_lt (p : positive) : Zpos p < 2 ^ Zpos (digits2_pos p).
Proof.
  rewrite digits2_pos_size.
  pose proof (Pos.size_gt p) as H.
  rewrite <- Pos2Z.inj_pow. apply Pos2Z.pos_lt_pos. exact H.
Qed.

Lemma digits2_pos_le (p : positive) : 2 ^ (Zpos (digits2_pos p) - 1) <= Zpos p.
Proof.
  rewrite digits2_pos_size.
  pose proof (Pos.size_le p) as H.
  apply Pos2Z.pos_le_pos in H. rewrite Pos2Z.inj_pow in H.
  replace (Zpos (Pos.size p)) with (Z.succ (Zpos (Pos.size p) - 1)) in H by lia.
  rewrite Z.pow_succ_r in H by lia. lia.
Qed.

(** A number below [2 ^ k] has at most [k] binary digits. *)
Lemma Zdigits2_le (m k : Z) : 0 <= m < 2 ^ k -> 0 <= k -> Zdigits2 m <= k.
Proof.
  intros [Hm Hlt] Hk. destruct m as [|p|p]; cbn; [lia| |lia].
  pose proof (digits2_pos_le p) as Hle.
  destruct (Z_lt_le_dec k (Zpos (digits2_pos p))) as [Hgt|]; [|lia].
  exfalso.
  assert (2 ^ k <= 2 ^ (Zpos (digits2_pos p) - 1)) by (apply Z.pow_le_mono_r; lia).
  lia.
Qed.

Lemma shr_1_below (mrs : shr_record) (K : Z) :
  shr_below mrs (2 * K) -> shr_below (shr_1 mrs) K.
Proof.
  destruct mrs as [m r s]. unfold shr_below. cbn [shr_m shr_r shr_s].
  intros [[Hpos Hle] Hlt].
  destruct m as [|[p|p|]|p]; cbn [shr_1 shr_m shr_r shr_s orb]; try lia;
    (split; [lia|]); intros H; try specialize (Hlt H); lia.
Qed.

Lemma iter_pos_nat {A : Type} (f : A -> A) (p : positive) (x : A) :
  SpecFloat.iter_pos f p x = Nat.iter (Pos.to_nat p) f x.
Proof.
  revert x. induction p as [p IH|p IH|]; intros x; cbn [SpecFloat.iter_pos].
  - rewrite !IH. rewrite Pos2Nat.inj_xI.
    replace (S (2 * Pos.to_nat p))%nat with (Pos.to_nat p + (Pos.to_nat p + 1))%nat by lia.
    rewrite !Nat.iter_add. reflexivity.
  - rewrite !IH. rewrite Pos2Nat.inj_xO.
    replace (2 * Pos.to_nat p)%nat with (Pos.to_nat p + Pos.to_nat p)%nat by lia.
    rewrite Nat.iter_add. reflexivity.
  - reflexivity.
Qed.

Lemma shr_iter_below (n : nat) (mrs : shr_record) (K : Z) :
  shr_below mrs (2 ^ Z.of_nat n * K) -> shr_below (Nat.iter n shr_1 mrs) K.
Proof.
  revert K. induction n as [|n IH]; intros K H.
  - cbn in *. replace (1 * K) with K in H by lia. destruct K; exact H.
  - cbn [Nat.iter]. apply shr_1_below, IH.
    rewrite Nat2Z.inj_succ, Z.pow_succ_r in H by lia.
    replace (2 ^ Z.of_nat n * (2 * K)) with (2 * 2 ^ Z.of_nat n * K) by lia.
    exact H.
Qed.

Lemma shr_record_of_loc_below (m : Z) (l : location) (K : Z) :
  0 <= m <= K -> (l <> loc_Exact -> m < K) ->
  shr_below (shr_record_of_loc m l) K.
Proof.
  intros Hm Hl. unfold shr_below.
  destruct l as [|[| |]]; cbn [shr_record_of_loc shr_m shr_r shr_s orb];
    (split; [exact Hm|]); intros H; try discriminate H; apply Hl; discriminate.
Qed.

Lemma fexp_eq (x : Z) : fexp 53 1024 x = Z.max (x - 53) (-1074).
Proof. reflexivity. Qed.

(** The first step of rounding, on a mantissa [m] at a negative exponent
    [e] whose value is at most the integer [B]: the shifted mantissa is at
    most [B] at the new exponent, which is negative. *)
Lemma shr_fexp_below (m e : Z) (l : location) (B : Z) :
  0 <= m -> e < 0 -> 0 < B <= 128 ->
  m <= B * 2 ^ (- e) -> (l <> loc_Exact -> m < B * 2 ^ (- e)) ->
  exists mrs' e',
    shr_fexp 53 1024 m e l = (mrs', e')
    /\ e' < 0 /\ shr_below mrs' (B * 2 ^ (- e')).
Proof.
  intros Hm He HB Hle Hlt. unfold shr_fexp, shr.
  destruct (fexp 53 1024 (Zdigits2 m + e) - e) as [|p|p] eqn:Hn.
  - eexists _, _. split; [reflexivity|]. split; [exact He|].
    apply shr_record_of_loc_below; [lia|exact Hlt].
  - eexists _, _. split; [reflexivity|].
    assert (Hd : Zdigits2 m <= 8 - e).
    { apply Zdigits2_le; [|lia]. split; [exact Hm|].
      assert (B * 2 ^ (- e) <= 128 * 2 ^ (- e))
        by (apply Z.mul_le_mono_nonneg_r; [apply Z.pow_nonneg|]; lia).
      replace (8 - e) with (Z.succ 7 + - e) by lia.
      rewrite Z.pow_add_r, Z.pow_succ_r by lia.
      change (2 ^ 7) with 128.
      assert (0 < 2 ^ (- e)) by (apply Z.pow_pos_nonneg; lia). lia. }
    rewrite fexp_eq in Hn.
    assert (He' : e + Zpos p < 0) by lia.
    split; [exact He'|].
    rewrite iter_pos_nat. apply shr_iter_below.
    rewrite positive_nat_Z.
    replace (2 ^ Zpos p * (B * 2 ^ (- (e + Zpos p))))
      with (B * 2 ^ (- e)).
    + apply shr_record_of_loc_below; [lia|exact Hlt].
    + replace (- e) with (Zpos p + - (e + Zpos p)) at 1 by lia.
      rewrite Z.pow_add_r by lia. lia.
  - eexists _, _. split; [reflexivity|]. split; [exact He|].
    apply shr_record_of_loc_below; [lia|exact Hlt].
Qed.

Lemma round_nearest_even_below (mrs : shr_record) (K : Z) :
  shr_below mrs K ->
  0 <= round_nearest_even (shr_m mrs) (loc_of_shr_record mrs) <= K.
Proof.
  destruct mrs as [m [|] [|]]; unfold shr_below;
    cbn [shr_m shr_r shr_s orb loc_of_shr_record round_nearest_even];
    intros [Hm Hlt]; try specialize (Hlt eq_refl);
    try destruct (Z.even m); lia.
Qed.

(** Rounding to nearest keeps a value below an integer bound: for a value
    [mx * 2 ^ ex], or a value between it and the next mantissa when the
    location is inexact, that is at most [B]. *)
Lemma binary_round_aux_at_most (mx ex : Z) (lx : location) (B : Z) :
  0 <= mx -> ex < 0 -> 0 < B <= 128 ->
  mx <= B * 2 ^ (- ex) -> (lx <> loc_Exact -> mx < B * 2 ^ (- ex)) ->
  at_most B (binary_round_aux 53 1024 false mx ex lx).
Proof.
  intros Hm He HB Hle Hlt. unfold binary_round_aux.
  destruct (shr_fexp_below mx ex lx B Hm He HB Hle Hlt)
    as (mrs' & e' & -> & He' & Hbelow).
  pose proof (round_nearest_even_below mrs' _ Hbelow) as Hr.
  destruct (shr_fexp_below
              (round_nearest_even (shr_m mrs') (loc_of_shr_record mrs')) e'
              loc_Exact B)
    as (mrs'' & e'' & -> & He'' & [[Hpos Hle''] _]); try lia; [congruence|].
  destruct (shr_m mrs'') as [|m|m] eqn:Hm''; cbn [at_most]; [exact I| |lia].
  replace (e'' <=? 1024 - 53) with true by (symmetry; apply Z.leb_le; lia).
  cbn [at_most]. split; [exact He''|exact Hle''].
Qed.

Lemma iter_xO_spec (p k : positive) :
  Zpos (Pos.iter xO p k) = Zpos p * 2 ^ Zpos k
  /\ Zpos (digits2_pos (Pos.iter xO p k)) = Zpos (digits2_pos p) + Zpos k.
Proof.
  induction k as [|k IH] using Pos.peano_ind.
  - cbn [Pos.iter digits2_pos]. split; lia.
  - rewrite Pos.iter_succ. cbn [digits2_pos]. destruct IH as [IH1 IH2].
    rewrite Pos2Z.inj_succ, Z.pow_succ_r by lia. split; lia.
Qed.

(** A positive integer below [2 ^ 53] is a number: its mantissa has 53
    digits and its exponent is the number of its digits minus 53. *)
Lemma of_Z_pos (p : positive) :
  Zpos p < 2 ^ 53 ->
  exists m e,
    Number.of_Z (Zpos p) = S754_finite false m e
    /\ e = Zpos (digits2_pos p) - 53
    /\ e <= 0
    /\ Zpos m = Zpos p * 2 ^ (- e)
    /\ Zpos (digits2_pos m) = 53.
Proof.
  intros Hlt.
  assert (Hd : Zpos (digits2_pos p) <= 53).
  { change (Zpos (digits2_pos p)) with (Zdigits2 (Zpos p)).
    apply Zdigits2_le; lia. }
  unfold Number.of_Z, binary_normalize, binary_round, Number.prec, Number.emax.
  rewrite fexp_eq, Z.add_0_r.
  replace (Z.max (Zpos (digits2_pos p) - 53) (-1074))
    with (Zpos (digits2_pos p) - 53) by lia.
  assert (Hcanon : forall m e,
             Zpos (digits2_pos m) = 53 -> -52 <= e <= 0 ->
             binary_round_aux 53 1024 false (Zpos m) e loc_Exact
             = S754_finite false m e).
  { intros m e Hm He.
    assert (Hshr : shr_fexp 53 1024 (Zpos m) e loc_Exact
                   = ({| shr_m := Zpos m; shr_r := false; shr_s := false |}, e)).
    { unfold shr_fexp, shr. cbn [Zdigits2]. rewrite fexp_eq, Hm.
      replace (Z.max (53 + e - 53) (-1074) - e) with 0 by lia. reflexivity. }
    unfold binary_round_aux. rewrite Hshr.
    cbn [shr_m loc_of_shr_record round_nearest_even]. rewrite Hshr.
    cbn [shr_m].
    replace (e <=? 1024 - 53) with true by (symmetry; apply Z.leb_le; lia).
    reflexivity. }
  unfold shl_align.
  destruct (Zpos (digits2_pos p) - 53 - 0) as [|k|k] eqn:Hk.
  - exists p, 0. rewrite Hcanon by lia.
    split; [reflexivity|]. split; [lia|]. split; [lia|].
    split; [cbn; lia|lia].
  - lia.
  - destruct (iter_xO_spec p k) as [Hv Hdig].
    exists (Pos.iter xO p k), (Zpos (digits2_pos p) - 53).
    rewrite Hcanon by lia.
    split; [reflexivity|]. split; [reflexivity|]. split; [lia|].
    split; [|lia].
    rewrite Hv. f_equal. f_equal. lia.
Qed.

Lemma digits2_pos_mono (p q : positive) :
  Zpos p <= Zpos q -> Zpos (digits2_pos p) <= Zpos (digits2_pos q).
Proof.
  intros H.
  change (Zpos (digits2_pos p)) with (Zdigits2 (Zpos p)).
  apply Zdigits2_le; [|lia].
  pose proof (digits2_pos_lt q). lia.
Qed.

Lemma new_location_inexact (nb k : Z) : new_location nb k <> loc_Exact -> k <> 0.
Proof.
  intros H ->. apply H. unfold new_location.
  destruct (Z.even nb); reflexivity.
Qed.

(** The division of two mantissas: a quotient and a remainder at an
    exponent that is at most the difference of the exponents. *)
Lemma SFdiv_core_binary_spec (m1 e1 m2 e2 : Z) :
  0 < m2 ->
  exists q r,
    SFdiv_core_binary 53 1024 m1 e1 m2 e2
    = (q,
       Z.min (fexp 53 1024 (Zdigits2 m1 + e1 - (Zdigits2 m2 + e2))) (e1 - e2),
       new_location m2 r)
    /\ m1 * 2 ^ (e1 - e2
                 - Z.min (fexp 53 1024 (Zdigits2 m1 + e1 - (Zdigits2 m2 + e2)))
                     (e1 - e2))
       = m2 * q + r
    /\ 0 <= r < m2.
Proof.
  intros Hm2. unfold SFdiv_core_binary.
  set (e' := Z.min _ _).
  assert (Hs : 0 <= e1 - e2 - e') by (unfold e'; lia).
  set (m' := match e1 - e2 - e' with
             | 0 => m1
             | Zpos _ => Z.shiftl m1 (e1 - e2 - e')
             | Zneg _ => 0
             end).
  assert (Hm' : m' = m1 * 2 ^ (e1 - e2 - e')).
  { unfold m'. destruct (e1 - e2 - e') as [|s|s] eqn:E.
    - cbn. lia.
    - apply Z.shiftl_mul_pow2. lia.
    - lia. }
  pose proof (Z_div_mod m' m2 ltac:(lia)) as Hdiv.
  destruct (Z.div_eucl m' m2) as [q r].
  exists q, r. split; [reflexivity|]. rewrite <- Hm'. exact Hdiv.
Qed.

(** [completed / total] is at most 1. *)
Lemma div_at_most_one (c t : positive) :
  Zpos c <= Zpos t -> Zpos t < 2 ^ 53 ->
  at_most 1 (Number.div (Number.of_Z (Zpos c)) (Number.of_Z (Zpos t))).
Proof.
  intros Hct Ht.
  destruct (of_Z_pos c ltac:(lia)) as (m1 & e1 & -> & He1 & He1' & Hm1 & Hd1).
  destruct (of_Z_pos t Ht) as (m2 & e2 & -> & He2 & He2' & Hm2 & Hd2).
  pose proof (digits2_pos_mono c t Hct) as Hdig.
  unfold Number.div, SFdiv, Number.prec, Number.emax.
  destruct (SFdiv_core_binary_spec (Zpos m1) e1 (Zpos m2) e2 ltac:(lia))
    as (q & r & -> & Hq & Hr).
  cbn [Zdigits2] in *. rewrite Hd1, Hd2, fexp_eq in *.
  set (e' := Z.min (Z.max (53 + e1 - (53 + e2) - 53) (-1074)) (e1 - e2)) in *.
  assert (He' : e' < 0) by (unfold e'; lia).
  assert (Hs : 0 <= e1 - e2 - e') by (unfold e'; lia).
  cbn [xorb].
  assert (Hbound : Zpos m1 * 2 ^ (e1 - e2 - e') <= Zpos m2 * 2 ^ (- e')).
  { rewrite Hm1, Hm2, <- !Z.mul_assoc, <- !Z.pow_add_r by lia.
    replace (- e1 + (e1 - e2 - e')) with (- e2 + - e') by lia.
    apply Z.mul_le_mono_nonneg_r; [apply Z.pow_nonneg; lia|exact Hct]. }
  assert (Hq0 : 0 <= q).
  { assert (0 <= Zpos m1 * 2 ^ (e1 - e2 - e'))
      by (apply Z.mul_nonneg_nonneg; [lia|apply Z.pow_nonneg; lia]).
    nia. }
  apply binary_round_aux_at_most; try lia.
  - rewrite Z.mul_1_l. nia.
  - intros Hl. apply new_location_inexact in Hl. rewrite Z.mul_1_l. nia.
Qed.

Lemma hundred_eq : Number.hundred = S754_finite false 7036874417766400 (-46).
Proof. reflexivity. Qed.

(** The product by 100 of a number that is at most 1 is at most 100. *)
Lemma mul_hundred_at_most (x : number) :
  at_most 1 x -> at_most 100 (Number.mul x Number.hundred).
Proof.
  rewrite hundred_eq. unfold Number.mul, Number.prec, Number.emax.
  destruct x as [[|]|[|]| |[|] m e]; cbn [at_most SFmul xorb]; try tauto.
  intros [He Hm].
  apply binary_round_aux_at_most; try lia.
  - rewrite Pos2Z.inj_mul.
    replace (- (e + -46)) with (- e + 46) by lia.
    rewrite Z.pow_add_r by lia.
    change (Zpos 7036874417766400) with (100 * 2 ^ 46).
    assert (0 < 2 ^ 46) by reflexivity. nia.
  - intros H. contradiction H. reflexivity.
Qed.

Lemma of_Z_zero : Number.of_Z 0 = S754_zero false.
Proof. reflexivity. Qed.

(** [Math.round] of a number that is at most 100 is an integer between 0
    and 100. *)
Lemma round_at_most_hundred (x : number) :
  at_most 100 x -> exists n, Math.round x = Number.of_Z n /\ 0 <= n <= 100.
Proof.
  destruct x as [[|]|[|]| |[|] m e]; cbn [at_most]; try tauto.
  - intros _. exists 0. split; [reflexivity|lia].
  - intros [He Hm]. unfold Math.round.
    replace (0 <=? e) with false by (symmetry; apply Z.leb_gt; exact He).
    cbn [cond_Zopp]. cbv zeta.
    set (n := (2 * Zpos m + 2 ^ (- e)) / 2 ^ (1 - e)).
    assert (Hpow : 2 ^ (1 - e) = 2 * 2 ^ (- e)).
    { replace (1 - e) with (Z.succ (- e)) by lia. apply Z.pow_succ_r. lia. }
    assert (Hpos : 0 < 2 ^ (- e)) by (apply Z.pow_pos_nonneg; lia).
    assert (Hn : 0 <= n <= 100).
    { unfold n. rewrite Hpow. split.
      - apply Z.div_pos; lia.
      - apply Z.lt_succ_r, Z.div_lt_upper_bound; lia. }
    exists n. split; [|exact Hn].
    destruct (n =? 0) eqn:E; [|reflexivity].
    apply Z.eqb_eq in E. rewrite E. reflexivity.
Qed.

Lemma strict_eq_pos_zero (p : positive) :
  Zpos p < 2 ^ 53 -> Number.strict_eq (Number.of_Z (Zpos p)) Number.zero = false.
Proof.
  intros H. destruct (of_Z_pos p H) as (m & e & -> & _). reflexivity.
Qed.

(** The percentage computed in double precision from two counts, the
    first at most the second, is an integer between 0 and 100. *)
Lemma computed_percentage_range (completed total : Z) :
  0 <= completed <= total -> total < 2 ^ 53 ->
  exists n, computed_percentage completed total = Number.of_Z n /\ 0 <= n <= 100.
Proof.
  intros Hc Ht. unfold computed_percentage.
  destruct total as [|t|t]; [|rewrite (strict_eq_pos_zero t Ht)|lia].
  - exists 0. split; [reflexivity|lia].
  - destruct completed as [|c|c]; [|apply round_at_most_hundred, mul_hundred_at_most,
                                      div_at_most_one; lia|lia].
    destruct (of_Z_pos t Ht) as (m & e & -> & _).
    exists 0. split; [reflexivity|lia].
Qed.

(** **** Agreement with the percentage of the specification *)

Lemma round_half_up_percentage_range (completed total : Z) :
  0 <= completed <= total ->
  0 <= round_half_up_percentage completed total <= 100.
Proof.
  intros H. unfold round_half_up_percentage.
  destruct (total =? 0) eqn:E; [lia|].
  apply Z.eqb_neq in E. split.
  - apply Z.div_pos; lia.
  - apply Z.lt_succ_r, Z.div_lt_upper_bound; lia.
Qed.

Lemma agree_up_to_sound (bound : nat) (completed total : Z) :
  agree_up_to bound = true ->
  0 <= completed <= total -> total <= Z.of_nat bound ->
  computed_percentage completed total
  = Number.of_Z (round_half_up_percentage completed total).
Proof.
  intros H Hc Ht. unfold agree_up_to in H.
  rewrite forallb_forall in H.
  specialize (H (Z.to_nat total)).
  rewrite forallb_forall in H.
  assert (Hin : In (Z.to_nat total) (seq 0 (S bound))) by (apply in_seq; lia).
  specialize (H Hin (Z.to_nat completed)).
  assert (Hin' : In (Z.to_nat completed) (seq 0 (S (Z.to_nat total))))
    by (apply in_seq; lia).
  specialize (H Hin').
  apply bool_decide_eq_true in H.
  rewrite !Z2Nat.id in H by lia. exact H.
Qed.

Lemma agree_up_to_39 : agree_up_to 39 = true.
Proof. vm_compute. reflexivity. Qed.

(** For fewer than 40 subtasks the computed percentage is the rounded
    percentage of the specification. *)
Lemma computed_percentage_exact_below_40 (completed total : Z) :
  0 <= completed <= total -> total < 40 ->
  computed_percentage completed total
  = Number.of_Z (round_half_up_percentage completed total).
Proof.
  intros Hc Ht. apply (agree_up_to_sound 39); [apply agree_up_to_39|exact Hc|lia].
Qed.

Lemma within_one_up_to_sound (bound : nat) (completed total : Z) :
  within_one_up_to bound = true ->
  0 <= completed <= total -> total <= Z.of_nat bound ->
  exists p,
    computed_percentage completed total = Number.of_Z p
    /\ round_half_up_percentage completed total - 1 <= p
       <= round_half_up_percentage completed total
    /\ 0 <= p.
Proof.
  intros H Hc Ht. unfold within_one_up_to in H.
  rewrite forallb_forall in H.
  specialize (H (Z.to_nat total)).
  rewrite forallb_forall in H.
  assert (Hin : In (Z.to_nat total) (seq 0 (S bound))) by (apply in_seq; lia).
  specialize (H Hin (Z.to_nat completed)).
  assert (Hin' : In (Z.to_nat completed) (seq 0 (S (Z.to_nat total))))
    by (apply in_seq; lia).
  specialize (H Hin'). cbv zeta in H.
  rewrite !Z2Nat.id in H by lia.
  apply orb_true_iff in H as [H|H].
  - apply bool_decide_eq_true in H. eexists. split; [exact H|].
    split; [lia|]. apply round_half_up_percentage_range, Hc.
  - apply andb_true_iff in H as [H Hr].
    apply bool_decide_eq_true in H. apply Z.leb_le in Hr.
    eexists. split; [exact H|]. lia.
Qed.

Lemma within_one_up_to_100 : within_one_up_to 100 = true.
Proof. vm_compute. reflexivity. Qed.

Lemma count_completed_bounds (subtasks : list object) :
  0 <= count_completed subtasks <= Z.of_nat (length subtasks).
Proof.
  unfold count_completed. split; [apply Nat2Z.is_nonneg|].
  apply inj_le, length_filter.
Qed.

(** Both functions on an array of fewer than 40 subtask objects: the
    result is the rounded percentage of the specification, an integer of
    [0, 100]. *)
Lemma calculateProgress_exact_below_40 (subtasks : list object) (w : World) :
  (length subtasks < 40)%nat ->
  exists p : Z,
    calculateProgress (VArr (map VObj subtasks)) w = (Ok (Number.of_Z p), w)
    /\ p = round_half_up_percentage (count_completed subtasks)
             (Z.of_nat (length subtasks))
    /\ 0 <= p <= 100.
Proof.
  intros Hlen. eexists. split; [|split; [reflexivity|]].
  - rewrite calculateProgress_counts.
    rewrite computed_percentage_exact_below_40;
      [reflexivity | apply count_completed_bounds | lia].
  - apply round_half_up_percentage_range, count_completed_bounds.
Qed.

(** On every array of subtask objects (an array has fewer than [2 ^ 32]
    elements, and [2 ^ 53] is enough here) the result is an integer
    between 0 and 100; on the empty array it is 0. *)
Lemma calculateProgress_range (subtasks : list object) (w : World) :
  Z.of_nat (length subtasks) < 2 ^ 53 ->
  exists n : Z,
    calculateProgress (VArr (map VObj subtasks)) w = (Ok (Number.of_Z n), w)
    /\ 0 <= n <= 100.
Proof.
  intros Hlen.
  destruct (computed_percentage_range (count_completed subtasks)
              (Z.of_nat (length subtasks)) (count_completed_bounds subtasks) Hlen)
    as (n & Hn & Hrange).
  exists n. rewrite calculateProgress_counts, Hn. split; [reflexivity|exact Hrange].
Qed.

(** On an array of at most 100 subtask objects the result is the rounded
    percentage of the specification, or one less. *)
Lemma calculateProgress_within_one_up_to_100 (subtasks : list object) (w : World) :
  (length subtasks <= 100)%nat ->
  exists p : Z,
    calculateProgress (VArr (map VObj subtasks)) w = (Ok (Number.of_Z p), w)
    /\ 0 <= p <= 100
    /\ round_half_up_percentage (count_completed subtasks)
         (Z.of_nat (length subtasks)) - 1
       <= p
       <= round_half_up_percentage (count_completed subtasks)
            (Z.of_nat (length subtasks)).
Proof.
  intros Hlen.
  destruct (within_one_up_to_sound 100 (count_completed subtasks)
              (Z.of_nat (length subtasks)) within_one_up_to_100
              (count_completed_bounds subtasks)) as (p & Hp & Hnear & Hpos);
    [lia|].
  exists p. rewrite calculateProgress_counts, Hp.
  split; [reflexivity|]. split; [|exact Hnear].
  pose proof (round_half_up_percentage_range _ _ (count_completed_bounds subtasks)).
  lia.
Qed.

(** The example of the specification: two subtasks of three are
    completed, the percentage is 67. *)
Example calculateProgress_two_of_three (w : World) :
  calculateProgress
    (VArr [VObj [("completed", VBool true)]; VObj [("completed", VBool false)];
           VObj [("completed", VBool true)]]) w
  = (Ok (Number.of_Z 67), w).
Proof. vm_compute. reflexivity. Qed.

(** C1 (the code departs from the claim).  On 40 subtasks of which 23 are
    completed, both functions return 57: [23 / 40] is the double nearest to
    0.575, its product with 100 is the double 57.49999999999999..., and
    [Math.round] rounds it down.  The percentage of the claim,
    [round(100 * 23 / 40)] with halves rounded up, is 58. *)
Theorem percentage_of_23_in_40 (w : World) :
  let S := subtasks_of 23 true ++ subtasks_of 17 false in
  count_completed S = 23
  /\ Z.of_nat (length S) = 40
  /\ calculateProgress (VArr (map VObj S)) w = (Ok (Number.of_Z 57), w)
  /\ calculateProgressPercentage (VArr (map VObj S)) w = (Ok (Number.of_Z 57), w)
  /\ round_half_up_percentage 23 40 = 58.
Proof. repeat split; vm_compute; reflexivity. Qed.

(** C9.  On every array, whatever its elements, [calculateProgress] and
    [calculateProgressPercentage] return the same result (the same number,
    or the same exception of the [filter] callback) and leave the same
    world. *)
Theorem calculateProgress_eq_calculateProgressPercentage
    (items : list value) (w : World) :
  calculateProgress (VArr items) w = calculateProgressPercentage (VArr items) w.
Proof.
  unfold calculateProgress, calculateProgressPercentage, bind, lift, ret.
  destruct (filter_completed items); reflexivity.
Qed.

(** *** Inputs that are no valid sequence *)


Lemma calculateProgress_empty (w : World) :
  calculateProgress (VArr []) w = (Ok Number.zero, w).
Proof. reflexivity. Qed.

Lemma calculateProgressPercentage_empty (w : World) :
  calculateProgressPercentage (VArr []) w = (Ok Number.zero, w).
Proof. reflexivity. Qed.

(** C4 (the code departs from the claim).  [calculateProgressPercentage]
    has no test of its argument: on every value that is no array it throws
    a TypeError, logs nothing and returns nothing, where
    [calculateProgress] warns and returns 0. *)
Theorem calculateProgressPercentage_not_array (v : value) (w : World) :
  Array_isArray v = false ->
  calculateProgressPercentage v w = (Throw TypeError, w).
Proof. destruct v; intros H; try discriminate H; reflexivity. Qed.

Lemma calculateProgressPercentage_not_array_witness :
  Array_isArray VUndefined = false
  /\ calculateProgressPercentage VUndefined empty_world
     = (Throw TypeError, empty_world).
Proof.
  split; [reflexivity|].
  apply (calculateProgressPercentage_not_array VUndefined empty_world).
  reflexivity.
Defined.

(** *** Arrays of any values *)

Lemma filter_completed_nullish (items : list value) :
  existsb nullish items = true -> filter_completed items = Throw TypeError.
Proof.
  induction items as [|v rest IH]; [discriminate|].
  cbn [existsb filter_completed]. intros H.
  apply orb_true_iff in H as [H|H].
  - destruct v; try discriminate H; reflexivity.
  - rewrite (IH H). destruct (get_completed v) as [c|[|reason]] eqn:E;
      [reflexivity|reflexivity|].
    destruct v; discriminate E.
Qed.

Lemma filter_completed_values (items : list value) :
  existsb nullish items = false ->
  exists kept,
    filter_completed items = Ok kept
    /\ Z.of_nat (length kept) = count_truthy items.
Proof.
  unfold count_truthy.
  induction items as [|v rest IH]; [intros _; exists []; split; reflexivity|].
  cbn [existsb filter_completed]. intros H.
  apply orb_false_iff in H as [Hv Hrest].
  destruct (IH Hrest) as (kept & -> & Hlen).
  rewrite filter_cons.
  destruct (decide (completed_truthy v = true)) as [Ht|Ht];
    unfold completed_truthy in Ht;
    destruct (get_completed v) as [c|e] eqn:E.
  - rewrite Ht. eexists. split; [reflexivity|]. cbn [length]. lia.
  - discriminate Ht.
  - destruct (ToBoolean c); [congruence|]. eexists. split; [reflexivity|exact Hlen].
  - destruct v; try discriminate E; discriminate Hv.
Qed.

(** On an array without [null] or [undefined] element both functions
    return the percentage of the elements whose [completed] is truthy. *)
Lemma percentage_of_values (items : list value) (w : World) :
  existsb nullish items = false ->
  calculateProgress (VArr items) w
  = (Ok (computed_percentage (count_truthy items) (Z.of_nat (length items))), w)
  /\ calculateProgressPercentage (VArr items) w
     = (Ok (computed_percentage (count_truthy items) (Z.of_nat (length items))), w).
Proof.
  intros E.
  unfold calculateProgress, calculateProgressPercentage, bind, lift, ret.
  destruct (filter_completed_values items E) as (kept & -> & ->).
  split; reflexivity.
Qed.

(** *** The progress bar *)

Lemma gt_zero_of_zero : gt_zero (Some Number.zero) = false.
Proof. reflexivity. Qed.

Lemma gt_zero_undefined : gt_zero None = false.
Proof. reflexivity. Qed.

Lemma updateProgressBar_ok
    (taskId : string) (p : number) (completed total : option number) (w : World) :
  fst (updateProgressBar taskId p completed total w) = Ok tt.
Proof.
  unfold updateProgressBar, bind, get_document, put_document, ret.
  destruct (cards (document w) !! taskId) as [[[c|] text]|];
    try (destruct (gt_zero total)); reflexivity.
Qed.

Lemma updateProgressBar_not_positive
    (taskId : string) (p : number) (completed total : option number) (w : World) :
  gt_zero total = false ->
  container_of taskId (snd (updateProgressBar taskId p completed total w)) = None.
Proof.
  intros Hgt. unfold container_of.
  unfold updateProgressBar, bind, get_document, put_document, ret.
  destruct (cards (document w) !! taskId) as [[[c|] text]|] eqn:Hcard;
    rewrite ?Hgt; cbn [snd document with_document cards with_cards];
    rewrite ?lookup_insert_eq, ?Hcard; reflexivity.
Qed.

(** The declaration of lines 23-36, which is not in force, has the other
    policy: it has no total, never removes the container, and renders a
    percentage of 0 as a gray fill of width [0%]. *)
Lemma updateProgressBar_shadowed_renders_zero
    (taskId : string) (w : World) (card : Card) (c : Container) (f : Fill) :
  cards (document w) !! taskId = Some card ->
  card_container card = Some c ->
  container_fill c = Some f ->
  exists c',
    container_of taskId (snd (updateProgressBar_shadowed taskId Number.zero w))
    = Some c'
    /\ container_fill c'
       = Some {| fill_width := [Hole (VNum Number.zero); Lit "%"];
                 fill_backgroundColor := "lightgray" |}.
Proof.
  intros Hcard Hc Hf. unfold container_of.
  unfold updateProgressBar_shadowed, bind, get_document, put_document.
  rewrite Hcard. destruct card as [oc text]. cbn in Hc. subst oc.
  rewrite Hf. cbn [snd document with_document cards with_cards].
  rewrite lookup_insert_eq. cbn [mbind option_bind card_container].
  eexists. split; reflexivity.
Qed.

(** C6.  The policy of [updateProgressBar] (lines 89-110, the
    declaration in force) on the indicator of a task: its container in
    the document, with its fill and its counter.  A call with a total of
    0 removes the container: the task has none afterwards, and nothing is
    rendered at 0%.  A call with a total greater than 0, for a percentage
    between 0 and 100, shows the indicator: the container is displayed,
    the fill has the width [percentage%] and the counter reads
    [completed/total Subtasks]. *)
Theorem updateProgressBar_policy
    (taskId : string) (n : Z) (completed total : option number) (w : World)
    (c : Container) :
  container_of taskId w = Some c ->
  let w' := snd (updateProgressBar taskId (Number.of_Z n) completed total w) in
  (total = Some Number.zero -> container_of taskId w' = None)
  /\ (gt_zero total = true ->
      0 <= n <= 100 ->
      is_Some (container_fill c) ->
      is_Some (container_counter c) ->
      indicator_shown taskId (Number.of_Z n) completed total w').
Proof.
  intros Hc. cbv zeta. split.
  - intros ->. apply updateProgressBar_not_positive. reflexivity.
  - intros Hgt _ [f Hf] [counter Hcounter].
    revert Hc. unfold container_of, indicator_shown.
    unfold updateProgressBar, bind, get_document, put_document, ret.
    destruct (cards (document w) !! taskId) as [[[c0|] text]|] eqn:Hcard;
      cbn [mbind option_bind card_container]; try discriminate.
    intros [= <-]. rewrite Hgt, Hf, Hcounter.
    cbn [snd document with_document cards with_cards].
    rewrite lookup_insert_eq.
    eexists _, _, _. repeat split.
Qed.

Lemma updateProgressBar_policy_witness :
  container_of "t1"
    (snd (updateProgressBar "t1" (Number.of_Z 0) (Some Number.zero) (Some Number.zero)
            (on_sample_board empty_world)))
  = None
  /\ indicator_shown "t1" (Number.of_Z 50) (Some (Number.of_Z 1)) (Some (Number.of_Z 2))
       (snd (updateProgressBar "t1" (Number.of_Z 50) (Some (Number.of_Z 1))
               (Some (Number.of_Z 2)) (on_sample_board empty_world))).
Proof.
  split.
  - apply (updateProgressBar_policy "t1" 0 (Some Number.zero) (Some Number.zero)
             (on_sample_board empty_world) sample_container);
      reflexivity.
  - apply (updateProgressBar_policy "t1" 50 (Some (Number.of_Z 1))
             (Some (Number.of_Z 2)) (on_sample_board empty_world) sample_container).
    + reflexivity.
    + reflexivity.
    + lia.
    + eexists; reflexivity.
    + eexists; reflexivity.
Defined.

(** *** The document and the store leave the tasks alone *)

Section Frames.

Variable TASK_URL : string.
Variable findTaskInData : string -> option loc.
Variable getBoardOverlayTemplate : string -> Task -> string.
Variable store_outcome : list Call -> Call -> Outcome.

Lemma updateProgressBar_document
    (taskId : string) (p : number) (completed total : option number) (w : World) :
  exists d, updateProgressBar taskId p completed total w = (Ok tt, with_document d w).
Proof.
  unfold updateProgressBar, bind, get_document, put_document, ret.
  destruct (cards (document w) !! taskId) as [[[c|] text]|];
    try (destruct (gt_zero total)); eauto.
  all: exists (document w); destruct w; reflexivity.
Qed.

Lemma updateOverlayIfVisible_document
    (category : string) (task : loc) (t : Task) (w : World) :
  heap w !! task = Some t ->
  exists d,
    updateOverlayIfVisible getBoardOverlayTemplate category task w
    = (Ok tt, with_document d w).
Proof.
  intros Ht.
  unfold updateOverlayIfVisible, bind, get_document, put_document, ret, read_task.
  destruct (overlay_display (document w)) as [display|];
    [destruct (decide (display = "block"));
     [destruct (overlayDetails (document w))|]|];
    rewrite ?Ht; eauto.
  all: exists (document w); destruct w; reflexivity.
Qed.

Lemma progressBarfilling_document
    (taskId category : string) (p completed total : number)
    (task : loc) (t : Task) (w : World) :
  heap w !! task = Some t ->
  exists d,
    progressBarfilling getBoardOverlayTemplate taskId category p completed total
      task w
    = (Ok tt, with_document d w).
Proof.
  intros Ht. unfold progressBarfilling, bind.
  destruct (updateProgressBar_document taskId p (Some completed) (Some total) w)
    as [d1 ->].
  destruct (updateOverlayIfVisible_document category task t (with_document d1 w) Ht)
    as [d2 ->].
  exists d2. reflexivity.
Qed.

(** The toggle of [toggleSubtaskCompletion] on an index in range. *)
Lemma toggleSubtaskCompletion_in_range
    (taskId : string) (i : Z) (w : World)
    (task : loc) (t : Task) (subtasks : list object) (subtask : object) :
  findTaskInData taskId = Some task ->
  heap w !! task = Some t ->
  task_subtasks t = Some subtasks ->
  array_get subtasks i = Some subtask ->
  let r := subtasks_request TASK_URL taskId (task_category t) (toggle_at i subtasks) in
  let h' := <[task := with_subtasks (toggle_at i subtasks) t]> (heap w) in
  match store_outcome (network w) (FetchCall r) with
  | Rejected e =>
      toggleSubtaskCompletion TASK_URL findTaskInData getBoardOverlayTemplate
        store_outcome taskId i w
      = (Ok tt,
         {| heap := h'; document := document w;
            console := console w ++ [failed_to_save taskId e];
            network := network w ++ [FetchCall r] |})
  | Fulfilled _ =>
      exists d,
        toggleSubtaskCompletion TASK_URL findTaskInData getBoardOverlayTemplate
          store_outcome taskId i w
        = (Ok tt,
           {| heap := h'; document := d; console := console w;
              network := network w ++ [FetchCall r] |})
  end.
Proof.
  intros Hfind Hheap Hsub Hget r h'.
  unfold toggleSubtaskCompletion.
  rewrite Hfind, Hheap, Hsub, Hget.
  assert (Hs : <[Z.to_nat i := obj_set "completed" (not_completed subtask) subtask]>
                 subtasks
               = toggle_at i subtasks).
  { unfold toggle_at. rewrite Hget. reflexivity. }
  rewrite Hs.
  change {| req_url := TASK_URL +:+ "/" +:+ task_category t +:+ "/" +:+ taskId
                         +:+ "/subtasks.json";
            req_method := "PUT";
            req_headers := [("Content-Type", "application/json")];
            req_body := VArr (map VObj (toggle_at i subtasks)) |} with r.
  unfold bind, try_catch, write_subtasks, fetch, lift. cbn beta.
  rewrite Hheap. cbn [network with_heap with_network].
  rewrite filter_completed_objects.
  destruct (store_outcome (network w) (FetchCall r)) as [e|response];
    [reflexivity|].
  match goal with
  | |- context [progressBarfilling _ ?a ?b ?c ?d ?e ?f ?w'] =>
      destruct (progressBarfilling_document a b c d e f
                  (with_subtasks (toggle_at i subtasks) t) w') as [d' Hd]
  end.
  { apply lookup_insert_eq. }
  exists d'. rewrite Hd. reflexivity.
Qed.

(** C2 (the code departs from the claim).  In [toggleSubtaskCompletion]
    the assignment of line 48 stands before the [try] and has no test of
    the index: on every index out of range it throws a TypeError, which
    rejects the promise of the caller.  Nothing is mutated and nothing is
    sent, but nothing is reported to the console either. *)
Theorem toggleSubtaskCompletion_out_of_range
    (taskId : string) (i : Z) (w : World)
    (task : loc) (t : Task) (subtasks : list object) :
  findTaskInData taskId = Some task ->
  heap w !! task = Some t ->
  task_subtasks t = Some subtasks ->
  array_get subtasks i = None ->
  toggleSubtaskCompletion TASK_URL findTaskInData getBoardOverlayTemplate
    store_outcome taskId i w
  = (Throw TypeError, w).
Proof.
  intros Hfind Hheap Hsub Hget.
  unfold toggleSubtaskCompletion.
  rewrite Hfind, Hheap, Hsub, Hget. reflexivity.
Qed.

(** [updateSubtaskState] on an index out of range does what the claim
    says: the error is reported on the console, and the tasks, the
    document and the store are left as they are. *)
Lemma updateSubtaskState_out_of_range
    (i : Z) (w : World) (task : loc) (t : Task) :
  heap w !! task = Some t ->
  array_get (default [] (task_subtasks t)) i = None ->
  updateSubtaskState store_outcome task i w
  = (Ok tt, with_console (console w ++ [subtask_not_found i]) w).
Proof.
  intros Hheap Hget.
  unfold updateSubtaskState, bind at 1, read_task.
  rewrite Hheap, Hget. reflexivity.
Qed.

(** The toggle of [updateSubtaskState] on an index in range. *)
Lemma updateSubtaskState_in_range
    (i : Z) (w : World) (task : loc) (t : Task)
    (subtasks : list object) (subtask : object) :
  heap w !! task = Some t ->
  task_subtasks t = Some subtasks ->
  array_get subtasks i = Some subtask ->
  exists d c,
    updateSubtaskState store_outcome task i w
    = (Ok tt,
       {| heap := <[task := with_subtasks (toggle_at i subtasks) t]> (heap w);
          document := d; console := c;
          network :=
            network w
            ++ [SyncCall (task_id t) (VArr (map VObj (toggle_at i subtasks)))
                  (task_category t)] |}).
Proof.
  intros Hheap Hsub Hget.
  unfold updateSubtaskState, bind at 1, read_task. rewrite Hheap, Hsub.
  change (default [] (Some subtasks)) with subtasks. rewrite Hget.
  assert (Hs : <[Z.to_nat i := obj_set "completed" (not_completed subtask) subtask]>
                 subtasks
               = toggle_at i subtasks).
  { unfold toggle_at. rewrite Hget. reflexivity. }
  rewrite Hs.
  unfold bind at 1, write_subtasks. rewrite Hheap.
  unfold updateSubtaskProgress, bind at 1.
  rewrite calculateProgress_counts.
  unfold bind at 1.
  match goal with
  | |- context [updateProgressBar ?a ?b ?c ?d ?w'] =>
      destruct (updateProgressBar_document a b c d w') as [d' ->]
  end.
  unfold syncSubtasksWithFirebase, console_error.
  cbn [network with_heap with_document with_network].
  match goal with
  | |- context [store_outcome ?n ?c] =>
      destruct (store_outcome n c) as [e|response]; [|destruct (res_ok response)]
  end; eexists _, _; reflexivity.
Qed.

(** [updateSubtaskProgress] calls [updateProgressBar] with two arguments,
    so the total is [undefined] there: after a toggle by
    [updateSubtaskState] the task has no container, whatever the number
    of its subtasks. *)
Lemma updateSubtaskState_removes_container
    (i : Z) (w : World) (task : loc) (t : Task)
    (subtasks : list object) (subtask : object) :
  heap w !! task = Some t ->
  task_subtasks t = Some subtasks ->
  array_get subtasks i = Some subtask ->
  container_of (task_id t) (snd (updateSubtaskState store_outcome task i w)) = None.
Proof.
  intros Hheap Hsub Hget.
  unfold updateSubtaskState, bind at 1, read_task. rewrite Hheap, Hsub.
  change (default [] (Some subtasks)) with subtasks. rewrite Hget.
  unfold bind at 1, write_subtasks. rewrite Hheap.
  unfold updateSubtaskProgress, bind at 1.
  rewrite calculateProgress_counts.
  unfold bind at 1.
  match goal with
  | |- context [updateProgressBar ?a ?b None None ?w'] =>
      pose proof (updateProgressBar_ok a b None None w') as Hok;
      pose proof (updateProgressBar_not_positive a b None None w' eq_refl) as Hnone;
      destruct (updateProgressBar a b None None w') as [r w1]
  end.
  cbn [fst snd] in Hok, Hnone. subst r.
  unfold syncSubtasksWithFirebase, console_error, container_of in *.
  destruct (store_outcome _ _) as [e|response]; [|destruct (res_ok response)];
    exact Hnone.
Qed.

(** *** Claims on the toggle *)

(** C5 (the code departs from the claim).  A write fails when the
    promise of [fetch] is rejected, and when the store answers with a
    status that is not [ok].  In both cases the promise of
    [toggleSubtaskCompletion] is fulfilled, the flag negated in memory
    stays negated and the request was sent once.  A rejection is caught
    at line 62: it is logged with [console.error] and the document is not
    touched.  But [fetch] fulfils its promise on an error status and line
    51 drops the response: a write that the store refuses is reported
    nowhere. *)
Theorem toggleSubtaskCompletion_failed_write
    (taskId : string) (i : Z) (w : World)
    (task : loc) (t : Task) (subtasks : list object) (subtask : object) :
  findTaskInData taskId = Some task ->
  heap w !! task = Some t ->
  task_subtasks t = Some subtasks ->
  array_get subtasks i = Some subtask ->
  let r := subtasks_request TASK_URL taskId (task_category t) (toggle_at i subtasks) in
  write_failed (store_outcome (network w) (FetchCall r)) = true ->
  exists w',
    toggleSubtaskCompletion TASK_URL findTaskInData getBoardOverlayTemplate
      store_outcome taskId i w
    = (Ok tt, w')
    /\ heap w' !! task = Some (with_subtasks (toggle_at i subtasks) t)
    /\ array_get (toggle_at i subtasks) i
       = Some (obj_set "completed" (not_completed subtask) subtask)
    /\ obj_get "completed" (obj_set "completed" (not_completed subtask) subtask)
       = VBool (negb (ToBoolean (obj_get "completed" subtask)))
    /\ network w' = network w ++ [FetchCall r]
    /\ match store_outcome (network w) (FetchCall r) with
       | Rejected e =>
           console w' = console w ++ [failed_to_save taskId e]
           /\ document w' = document w
       | Fulfilled _ => console w' = console w
       end.
Proof.
  intros Hfind Hheap Hsub Hget r _.
  pose proof (toggleSubtaskCompletion_in_range taskId i w task t subtasks subtask
                Hfind Hheap Hsub Hget) as H.
  cbv zeta in H. fold r in H.
  assert (Hi : array_get (toggle_at i subtasks) i
               = Some (obj_set "completed" (not_completed subtask) subtask)).
  { unfold toggle_at. rewrite Hget.
    apply array_get_Some in Hget as [Hpos Hget].
    apply array_get_Some. split; [exact Hpos|].
    apply list_lookup_insert_eq. eapply lookup_lt_Some, Hget. }
  destruct (store_outcome (network w) (FetchCall r)) as [e|response];
    [|destruct H as [d H]];
    (eexists; split; [exact H|]); cbn [heap console network document];
    (split; [apply lookup_insert_eq|]); (split; [exact Hi|]);
    (split; [apply obj_get_set_eq|]); repeat split.
Qed.

(** C7.  Toggling index 1 of [{completed:false},{completed:false}]: the
    task holds [{completed:false},{completed:true}] afterwards and one
    call has been added to the calls to the store, with that array.  With
    [toggleSubtaskCompletion] the call is a PUT request whose body is the
    array, whether the store accepts it or not; with [updateSubtaskState]
    it is the call of [syncSubtasksWithFirebase] of line 164. *)
Theorem toggle_second_of_two
    (taskId : string) (w : World) (task : loc) (t : Task) :
  findTaskInData taskId = Some task ->
  heap w !! task = Some t ->
  task_subtasks t = Some [[("completed", VBool false)]; [("completed", VBool false)]] ->
  (exists w' t',
      toggleSubtaskCompletion TASK_URL findTaskInData getBoardOverlayTemplate
        store_outcome taskId 1 w
      = (Ok tt, w')
      /\ heap w' !! task = Some t'
      /\ task_subtasks t'
         = Some [[("completed", VBool false)]; [("completed", VBool true)]]
      /\ network w'
         = network w
           ++ [FetchCall
                 {| req_url :=
                      TASK_URL +:+ "/" +:+ task_category t +:+ "/" +:+ taskId
                        +:+ "/subtasks.json";
                    req_method := "PUT";
                    req_headers := [("Content-Type", "application/json")];
                    req_body :=
                      VArr [VObj [("completed", VBool false)];
                            VObj [("completed", VBool true)]] |}])
  /\ (exists w' t',
        updateSubtaskState store_outcome task 1 w = (Ok tt, w')
        /\ heap w' !! task = Some t'
        /\ task_subtasks t'
           = Some [[("completed", VBool false)]; [("completed", VBool true)]]
        /\ network w'
           = network w
             ++ [SyncCall (task_id t)
                   (VArr [VObj [("completed", VBool false)];
                          VObj [("completed", VBool true)]])
                   (task_category t)]).
Proof.
  intros Hfind Hheap Hsub. split.
  - pose proof (toggleSubtaskCompletion_in_range taskId 1 w task t _
                  [("completed", VBool false)] Hfind Hheap Hsub eq_refl) as H.
    cbv zeta in H.
    destruct (store_outcome _ _) as [e|]; [|destruct H as [d H]];
      eexists _, _; (split; [exact H|]); cbn [heap network];
      (split; [apply lookup_insert_eq|]); split; reflexivity.
  - destruct (updateSubtaskState_in_range 1 w task t _ [("completed", VBool false)]
                Hheap Hsub eq_refl) as (d & c & H).
    eexists _, _. split; [exact H|]. cbn [heap network].
    split; [apply lookup_insert_eq|]. split; reflexivity.
Qed.

(** The heap after each of the two toggles, on an index in range. *)
Lemma toggleSubtaskCompletion_heap
    (taskId : string) (i : Z) (w : World)
    (task : loc) (t : Task) (subtasks : list object) (subtask : object) :
  findTaskInData taskId = Some task ->
  heap w !! task = Some t ->
  task_subtasks t = Some subtasks ->
  array_get subtasks i = Some subtask ->
  heap (snd (toggleSubtaskCompletion TASK_URL findTaskInData getBoardOverlayTemplate
               store_outcome taskId i w))
  = <[task := with_subtasks (toggle_at i subtasks) t]> (heap w).
Proof.
  intros Hfind Hheap Hsub Hget.
  pose proof (toggleSubtaskCompletion_in_range taskId i w task t subtasks subtask
                Hfind Hheap Hsub Hget) as H.
  cbv zeta in H.
  destruct (store_outcome _ _) as [e|]; [|destruct H as [d H]];
    rewrite H; reflexivity.
Qed.

Lemma updateSubtaskState_heap
    (i : Z) (w : World) (task : loc) (t : Task)
    (subtasks : list object) (subtask : object) :
  heap w !! task = Some t ->
  task_subtasks t = Some subtasks ->
  array_get subtasks i = Some subtask ->
  heap (snd (updateSubtaskState store_outcome task i w))
  = <[task := with_subtasks (toggle_at i subtasks) t]> (heap w).
Proof.
  intros Hheap Hsub Hget.
  destruct (updateSubtaskState_in_range i w task t subtasks subtask
              Hheap Hsub Hget) as (d & c & H).
  rewrite H. reflexivity.
Qed.

Lemma toggle_frame_insert
    (i : Z) (w w' : World) (task : loc) (t : Task)
    (subtasks : list object) (subtask : object) :
  heap w !! task = Some t ->
  task_subtasks t = Some subtasks ->
  array_get subtasks i = Some subtask ->
  heap w' = <[task := with_subtasks (toggle_at i subtasks) t]> (heap w) ->
  toggle_frame task (Z.to_nat i) w w'.
Proof.
  intros Hheap Hsub Hget Hw'. unfold toggle_frame. rewrite Hw'. split.
  - intros other Hne. apply lookup_insert_ne. congruence.
  - exists t, (with_subtasks (toggle_at i subtasks) t), subtasks, (toggle_at i subtasks).
    split; [exact Hheap|]. split; [apply lookup_insert_eq|].
    repeat (split; [reflexivity || exact Hsub|]).
    eapply toggle_at_flipped, Hget.
Qed.

Lemma toggle_twice_heap
    (i : Z) (w w' w'' : World) (task : loc) (t : Task)
    (subtasks : list object) (subtask : object) (b : bool) :
  heap w !! task = Some t ->
  task_subtasks t = Some subtasks ->
  array_get subtasks i = Some subtask ->
  obj_get "completed" subtask = VBool b ->
  heap w' = <[task := with_subtasks (toggle_at i subtasks) t]> (heap w) ->
  heap w''
  = <[task := with_subtasks (toggle_at i (toggle_at i subtasks))
                (with_subtasks (toggle_at i subtasks) t)]> (heap w') ->
  heap w'' = heap w.
Proof.
  intros Hheap Hsub Hget Hb Hw' Hw''.
  rewrite Hw'', Hw', insert_insert_eq, with_subtasks_twice.
  rewrite (toggle_at_involutive i subtasks subtask b Hget Hb).
  rewrite (with_subtasks_id t subtasks Hsub).
  apply insert_id, Hheap.
Qed.

Lemma toggle_at_get (i : Z) (subtasks : list object) (subtask : object) :
  array_get subtasks i = Some subtask ->
  array_get (toggle_at i subtasks) i
  = Some (obj_set "completed" (not_completed subtask) subtask).
Proof.
  intros Hget. unfold toggle_at. rewrite Hget.
  apply array_get_Some in Hget as [Hpos Hget].
  apply array_get_Some. split; [exact Hpos|].
  apply list_lookup_insert_eq. eapply lookup_lt_Some, Hget.
Qed.

(** C8.  A toggle of an index in range, by [toggleSubtaskCompletion] or
    by [updateSubtaskState], changes in the heap of tasks nothing but the
    [completed] property of the subtask at that index, which it negates:
    the other tasks, the identifier, the category and the other
    properties of the task, the length of its subtask array, the other
    subtasks and the other properties of that subtask are as before. *)
Theorem toggle_changes_only_completed
    (taskId : string) (i : Z) (w : World)
    (task : loc) (t : Task) (subtasks : list object) (subtask : object) :
  findTaskInData taskId = Some task ->
  heap w !! task = Some t ->
  task_subtasks t = Some subtasks ->
  array_get subtasks i = Some subtask ->
  toggle_frame task (Z.to_nat i) w
    (snd (toggleSubtaskCompletion TASK_URL findTaskInData getBoardOverlayTemplate
            store_outcome taskId i w))
  /\ toggle_frame task (Z.to_nat i) w
       (snd (updateSubtaskState store_outcome task i w)).
Proof.
  intros Hfind Hheap Hsub Hget. split.
  - eapply toggle_frame_insert; eauto using toggleSubtaskCompletion_heap.
  - eapply toggle_frame_insert; eauto using updateSubtaskState_heap.
Qed.

(** C10.  Two toggles in succession of the same index in range, of a
    subtask whose [completed] is a boolean, leave the heap of tasks as it
    was before the first: the subtask array of the task is the original
    one.  This holds for [toggleSubtaskCompletion] and for
    [updateSubtaskState], whatever the store answers. *)
Theorem toggle_twice_restores
    (taskId : string) (i : Z) (w : World)
    (task : loc) (t : Task) (subtasks : list object) (subtask : object) (b : bool) :
  findTaskInData taskId = Some task ->
  heap w !! task = Some t ->
  task_subtasks t = Some subtasks ->
  array_get subtasks i = Some subtask ->
  obj_get "completed" subtask = VBool b ->
  let toggle :=
    toggleSubtaskCompletion TASK_URL findTaskInData getBoardOverlayTemplate
      store_outcome taskId i in
  let update := updateSubtaskState store_outcome task i in
  heap (snd (toggle (snd (toggle w)))) = heap w
  /\ heap (snd (update (snd (update w)))) = heap w.
Proof.
  intros Hfind Hheap Hsub Hget Hb toggle update.
  pose proof (toggle_at_get i subtasks subtask Hget) as Hget'.
  split.
  - pose proof (toggleSubtaskCompletion_heap taskId i w task t subtasks subtask
                  Hfind Hheap Hsub Hget) as H1.
    eapply toggle_twice_heap; eauto.
    eapply toggleSubtaskCompletion_heap; eauto.
    fold toggle in H1 |- *. rewrite H1. apply lookup_insert_eq.
  - pose proof (updateSubtaskState_heap i w task t subtasks subtask
                  Hheap Hsub Hget) as H1.
    eapply toggle_twice_heap; eauto.
    eapply updateSubtaskState_heap; eauto.
    fold update in H1 |- *. rewrite H1. apply lookup_insert_eq.
Qed.

(** *** Exceptions *)




End Frames.

Lemma toggleSubtaskCompletion_out_of_range_witness :
  array_get (subtasks_of 2 false) 5 = None
  /\ toggleSubtaskCompletion sample_url find_first no_markup store_up "t1" 5 two_open
     = (Throw TypeError, two_open).
Proof.
  split; [reflexivity|].
  apply (toggleSubtaskCompletion_out_of_range sample_url find_first no_markup store_up
           "t1" 5 two_open 1%positive (sample_task (subtasks_of 2 false))
           (subtasks_of 2 false));
    reflexivity.
Defined.

Lemma toggleSubtaskCompletion_failed_write_witness :
  exists w',
    toggleSubtaskCompletion sample_url find_first no_markup store_refusing "t1" 1
      two_open
    = (Ok tt, w')
    /\ heap w' !! 1%positive
       = Some (sample_task [[("completed", VBool false)]; [("completed", VBool true)]])
    /\ console w' = [].
Proof.
  destruct (toggleSubtaskCompletion_failed_write sample_url find_first no_markup
              store_refusing "t1" 1 two_open 1%positive
              (sample_task (subtasks_of 2 false)) (subtasks_of 2 false)
              [("completed", VBool false)]
              eq_refl eq_refl eq_refl eq_refl eq_refl)
    as (w' & Hrun & Hheap & _ & _ & _ & Hconsole).
  exists w'. split; [exact Hrun|]. split; [exact Hheap|exact Hconsole].
Defined.

Lemma toggle_second_of_two_witness :
  (exists w' t',
      toggleSubtaskCompletion sample_url find_first no_markup store_up "t1" 1 two_open
      = (Ok tt, w')
      /\ heap w' !! 1%positive = Some t'
      /\ task_subtasks t'
         = Some [[("completed", VBool false)]; [("completed", VBool true)]]
      /\ network w'
         = [FetchCall
              {| req_url := "https://store.example/tasks/todo/t1/subtasks.json";
                 req_method := "PUT";
                 req_headers := [("Content-Type", "application/json")];
                 req_body :=
                   VArr [VObj [("completed", VBool false)];
                         VObj [("completed", VBool true)]] |}])
  /\ (exists w' t',
        updateSubtaskState store_up 1%positive 1 two_open = (Ok tt, w')
        /\ heap w' !! 1%positive = Some t'
        /\ task_subtasks t'
           = Some [[("completed", VBool false)]; [("completed", VBool true)]]
        /\ network w'
           = [SyncCall "t1"
                (VArr [VObj [("completed", VBool false)];
                       VObj [("completed", VBool true)]])
                "todo"]).
Proof.
  exact (toggle_second_of_two sample_url find_first no_markup store_up "t1"
           two_open 1%positive (sample_task (subtasks_of 2 false))
           eq_refl eq_refl eq_refl).
Defined.

Lemma toggle_changes_only_completed_witness :
  toggle_frame 1%positive 1 two_open
    (snd (toggleSubtaskCompletion sample_url find_first no_markup store_up "t1" 1
            two_open))
  /\ toggle_frame 1%positive 1 two_open
       (snd (updateSubtaskState store_up 1%positive 1 two_open)).
Proof.
  exact (toggle_changes_only_completed sample_url find_first no_markup store_up
           "t1" 1 two_open 1%positive (sample_task (subtasks_of 2 false))
           (subtasks_of 2 false) [("completed", VBool false)]
           eq_refl eq_refl eq_refl eq_refl).
Defined.

Lemma toggle_twice_restores_witness :
  let toggle :=
    toggleSubtaskCompletion sample_url find_first no_markup store_down "t1" 1 in
  let update := updateSubtaskState store_down 1%positive 1 in
  heap (snd (toggle (snd (toggle two_open)))) = heap two_open
  /\ heap (snd (update (snd (update two_open)))) = heap two_open.
Proof.
  exact (toggle_twice_restores sample_url find_first no_markup store_down
           "t1" 1 two_open 1%positive (sample_task (subtasks_of 2 false))
           (subtasks_of 2 false) [("completed", VBool false)] false
           eq_refl eq_refl eq_refl eq_refl eq_refl).
Defined.



(** ** Further properties *)

(** *** The percentage on every array *)

(** X1.  What both percentage functions do on an array, whatever its
    elements: when an element is [null] or [undefined] they throw a
    TypeError; otherwise they return the percentage computed from the
    number of elements whose [completed] is truthy and the length.  In
    both cases the world is left as it is. *)
Theorem percentage_on_arrays (items : list value) (w : World) :
  calculateProgress (VArr items) w
  = (if existsb nullish items then Throw TypeError
     else Ok (computed_percentage (count_truthy items) (Z.of_nat (length items))),
     w)
  /\ calculateProgressPercentage (VArr items) w
     = (if existsb nullish items then Throw TypeError
        else Ok (computed_percentage (count_truthy items) (Z.of_nat (length items))),
        w).
Proof.
  unfold calculateProgress, calculateProgressPercentage, bind, lift, ret.
  destruct (existsb nullish items) eqn:E.
  - rewrite (filter_completed_nullish items E). split; reflexivity.
  - destruct (filter_completed_values items E) as (kept & -> & ->).
    split; reflexivity.
Qed.

Lemma existsb_Permutation {A : Type} (f : A -> bool) (l l' : list A) :
  l ≡ₚ l' -> existsb f l = existsb f l'.
Proof.
  induction 1 as [|x l l' _ IH|x y l|l l' l'' _ IH1 _ IH2]; cbn [existsb].
  - reflexivity.
  - rewrite IH. reflexivity.
  - destruct (f x), (f y); reflexivity.
  - congruence.
Qed.

(** X2.  The order of the subtasks does not matter: on two arrays that
    are permutations of one another [calculateProgress] gives the same
    result, a number or an exception. *)
Theorem calculateProgress_Permutation (items items' : list value) (w : World) :
  items ≡ₚ items' ->
  calculateProgress (VArr items) w = calculateProgress (VArr items') w.
Proof.
  intros Hperm.
  unfold calculateProgress, bind, lift, ret.
  destruct (existsb nullish items) eqn:E.
  - rewrite (filter_completed_nullish items E).
    rewrite (existsb_Permutation _ _ _ Hperm) in E.
    rewrite (filter_completed_nullish items' E). reflexivity.
  - destruct (filter_completed_values items E) as (kept & -> & Hk).
    rewrite (existsb_Permutation _ _ _ Hperm) in E.
    destruct (filter_completed_values items' E) as (kept' & -> & Hk').
    assert (Hlen : length items = length items') by (apply Permutation_length, Hperm).
    assert (Hcount : count_truthy items = count_truthy items').
    { unfold count_truthy. f_equal. apply Permutation_length.
      rewrite Hperm. reflexivity. }
    assert (Hkept : length kept = length kept') by lia.
    rewrite Hlen, Hkept. reflexivity.
Qed.

Lemma calculateProgress_Permutation_witness :
  calculateProgress
    (VArr [VObj [("completed", VBool true)]; VObj [("completed", VBool false)]])
    empty_world
  = calculateProgress
      (VArr [VObj [("completed", VBool false)]; VObj [("completed", VBool true)]])
      empty_world.
Proof.
  apply calculateProgress_Permutation. apply perm_swap.
Defined.

Lemma count_truthy_bounds (items : list value) :
  0 <= count_truthy items <= Z.of_nat (length items).
Proof.
  unfold count_truthy. split; [apply Nat2Z.is_nonneg|].
  apply inj_le, length_filter.
Qed.

(** X3.  On every array without [null] or [undefined] element (an array
    has fewer than [2 ^ 32] elements; [2 ^ 53] is enough) both percentage
    functions return an integer between 0 and 100, computed as it is in
    double precision. *)
Theorem percentage_between_0_and_100 (items : list value) (w : World) :
  existsb nullish items = false ->
  Z.of_nat (length items) < 2 ^ 53 ->
  exists n : Z,
    0 <= n <= 100
    /\ calculateProgress (VArr items) w = (Ok (Number.of_Z n), w)
    /\ calculateProgressPercentage (VArr items) w = (Ok (Number.of_Z n), w).
Proof.
  intros E Hlen.
  destruct (computed_percentage_range (count_truthy items) (Z.of_nat (length items))
              (count_truthy_bounds items) Hlen) as (n & Hn & Hrange).
  destruct (percentage_of_values items w E) as [H1 H2].
  exists n. rewrite H1, H2, Hn. split; [exact Hrange|split; reflexivity].
Qed.

Lemma percentage_between_0_and_100_witness :
  exists n : Z,
    0 <= n <= 100
    /\ calculateProgress
         (VArr [VObj [("completed", VBool true)]; VStr "note"; VObj []]) empty_world
       = (Ok (Number.of_Z n), empty_world)
    /\ calculateProgressPercentage
         (VArr [VObj [("completed", VBool true)]; VStr "note"; VObj []]) empty_world
       = (Ok (Number.of_Z n), empty_world).
Proof.
  apply (percentage_between_0_and_100
           [VObj [("completed", VBool true)]; VStr "note"; VObj []] empty_world);
    reflexivity.
Defined.

(** X4.  On an array of at most 100 elements, none [null] or [undefined],
    the result is the percentage rounded half up, or one less; on fewer
    than 40 elements it is the percentage rounded half up. *)
Theorem percentage_rounding (items : list value) (w : World) :
  existsb nullish items = false ->
  (length items <= 100)%nat ->
  exists n : Z,
    calculateProgress (VArr items) w = (Ok (Number.of_Z n), w)
    /\ round_half_up_percentage (count_truthy items) (Z.of_nat (length items)) - 1
       <= n
       <= round_half_up_percentage (count_truthy items) (Z.of_nat (length items))
    /\ ((length items < 40)%nat ->
        n = round_half_up_percentage (count_truthy items) (Z.of_nat (length items))).
Proof.
  intros E Hlen.
  destruct (percentage_of_values items w E) as [H1 _].
  destruct (Nat.lt_ge_cases (length items) 40) as [Hsmall|Hbig].
  - exists (round_half_up_percentage (count_truthy items) (Z.of_nat (length items))).
    rewrite H1, computed_percentage_exact_below_40;
      [|apply count_truthy_bounds|lia].
    split; [reflexivity|]. split; [lia|reflexivity].
  - destruct (within_one_up_to_sound 100 (count_truthy items)
                (Z.of_nat (length items)) within_one_up_to_100
                (count_truthy_bounds items)) as (n & Hn & Hnear & _); [lia|].
    exists n. rewrite H1, Hn. split; [reflexivity|]. split; [exact Hnear|lia].
Qed.

Lemma percentage_rounding_witness :
  exists n : Z,
    calculateProgress
      (VArr [VObj [("completed", VBool true)]; VObj [("completed", VBool false)];
             VObj [("completed", VBool true)]]) empty_world
    = (Ok (Number.of_Z n), empty_world)
    /\ n = 67.
Proof.
  destruct (percentage_rounding
              [VObj [("completed", VBool true)]; VObj [("completed", VBool false)];
               VObj [("completed", VBool true)]] empty_world eq_refl)
    as (n & Hn & _ & Hexact).
  - cbn [length]. lia.
  - exists n. split; [exact Hn|]. rewrite Hexact by (cbn [length]; lia).
    reflexivity.
Defined.

(** The quotient of a number by itself is 1. *)
Lemma div_self (p : positive) :
  Zpos p < 2 ^ 53 ->
  Number.div (Number.of_Z (Zpos p)) (Number.of_Z (Zpos p)) = Number.of_Z 1.
Proof.
  intros H.
  destruct (of_Z_pos p H) as (m & e & -> & He & He' & Hm & Hd).
  unfold Number.div, SFdiv, Number.prec, Number.emax.
  destruct (SFdiv_core_binary_spec (Zpos m) e (Zpos m) e ltac:(lia))
    as (q & r & -> & Hq & Hr).
  cbn [Zdigits2] in *. rewrite Hd in *.
  replace (53 + e - (53 + e)) with 0 in * by lia.
  replace (e - e) with 0 in * by lia.
  change (Z.min (fexp 53 1024 0) 0) with (-53) in *.
  change (2 ^ (0 - -53)) with 9007199254740992 in Hq.
  assert (Hq' : q = 9007199254740992) by nia.
  assert (Hr' : r = 0) by nia.
  subst q r.
  assert (Hloc : new_location (Zpos m) 0 = loc_Exact).
  { unfold new_location. destruct (Z.even (Zpos m)); reflexivity. }
  rewrite Hloc. reflexivity.
Qed.

Lemma computed_percentage_all (total : Z) :
  0 < total < 2 ^ 53 -> computed_percentage total total = Number.of_Z 100.
Proof.
  intros [Hpos Hlt]. destruct total as [|t|t]; try lia.
  unfold computed_percentage.
  rewrite (strict_eq_pos_zero t Hlt), (div_self t Hlt). reflexivity.
Qed.

Lemma computed_percentage_none (total : Z) :
  0 <= total < 2 ^ 53 -> computed_percentage 0 total = Number.of_Z 0.
Proof.
  intros [Hpos Hlt]. destruct total as [|t|t]; try lia; [reflexivity|].
  unfold computed_percentage. rewrite (strict_eq_pos_zero t Hlt).
  destruct (of_Z_pos t Hlt) as (m & e & -> & _). reflexivity.
Qed.

(** X5.  The two ends: when no element has a truthy [completed] the
    result is 0, and when every element of a non-empty array has one the
    result is 100, for every length (below [2 ^ 53]). *)
Theorem percentage_extremes (items : list value) (w : World) :
  existsb nullish items = false ->
  Z.of_nat (length items) < 2 ^ 53 ->
  (count_truthy items = 0 ->
   calculateProgress (VArr items) w = (Ok (Number.of_Z 0), w))
  /\ (items <> [] -> count_truthy items = Z.of_nat (length items) ->
      calculateProgress (VArr items) w = (Ok (Number.of_Z 100), w)).
Proof.
  intros E Hlen.
  destruct (percentage_of_values items w E) as [H1 _]. rewrite H1. split.
  - intros ->. rewrite computed_percentage_none by lia. reflexivity.
  - intros Hne ->. rewrite computed_percentage_all; [reflexivity|].
    destruct items; [contradiction|]. cbn [length] in *. lia.
Qed.

Lemma percentage_extremes_witness :
  calculateProgress (VArr (map VObj (subtasks_of 7 false))) empty_world
  = (Ok (Number.of_Z 0), empty_world)
  /\ calculateProgress (VArr (map VObj (subtasks_of 7 true))) empty_world
     = (Ok (Number.of_Z 100), empty_world).
Proof.
  split.
  - apply (percentage_extremes (map VObj (subtasks_of 7 false)) empty_world);
      reflexivity.
  - apply (percentage_extremes (map VObj (subtasks_of 7 true)) empty_world);
      [reflexivity|reflexivity|discriminate|reflexivity].
Defined.

(** *** The progress bar, further *)

Lemma updateProgressBar_untouched
    (taskId : string) (p : number) (completed total : option number) (w : World) :
  let w' := snd (updateProgressBar taskId p completed total w) in
  heap w' = heap w
  /\ console w' = console w
  /\ network w' = network w
  /\ overlay_display (document w') = overlay_display (document w)
  /\ overlayDetails (document w') = overlayDetails (document w)
  /\ (forall other, other <> taskId ->
      cards (document w') !! other = cards (document w) !! other)
  /\ cards (document w') !! taskId ≫= card_text
     = cards (document w) !! taskId ≫= card_text.
Proof.
  cbv zeta.
  unfold updateProgressBar, bind, get_document, put_document, ret.
  destruct (cards (document w) !! taskId) as [[[c|] text]|] eqn:Hcard;
    try (destruct (gt_zero total));
    cbn [snd heap console network document with_document cards with_cards
         overlay_display overlayDetails];
    rewrite ?lookup_insert_eq, ?Hcard;
    repeat split; try reflexivity;
    intros other Hne; apply lookup_insert_ne; congruence.
Qed.

(** X6.  [updateProgressBar] (lines 89-110) has no effect outside the
    document: whatever its arguments and whatever it finds there, it
    changes no task, sends nothing to the store and logs nothing, not
    even when the container is missing. *)
Theorem updateProgressBar_frame
    (taskId : string) (p : number) (completed total : option number) (w : World) :
  let w' := snd (updateProgressBar taskId p completed total w) in
  heap w' = heap w
  /\ network w' = network w
  /\ console w' = console w.
Proof.
  pose proof (updateProgressBar_untouched taskId p completed total w)
    as (Hheap & Hconsole & Hnetwork & _).
  cbv zeta. split; [exact Hheap|]. split; [exact Hnetwork|exact Hconsole].
Qed.

Lemma updateProgressBar_after_removal_helper
    (taskId : string) (p : number) (completed total : option number) (w : World)
    (p' : number) (completed' total' : option number) :
  gt_zero total = false ->
  updateProgressBar taskId p' completed' total'
    (snd (updateProgressBar taskId p completed total w))
  = (Ok tt, snd (updateProgressBar taskId p completed total w)).
Proof.
  intros Hgt.
  unfold updateProgressBar at 2 3.
  unfold bind, get_document, put_document, ret.
  destruct (cards (document w) !! taskId) as [[[c|] text]|] eqn:Hcard;
    rewrite ?Hgt; cbn [snd].
  - unfold updateProgressBar, bind, get_document.
    cbn [document with_document cards with_cards].
    rewrite lookup_insert_eq. reflexivity.
  - unfold updateProgressBar, bind, get_document. rewrite Hcard. reflexivity.
  - unfold updateProgressBar, bind, get_document. rewrite Hcard. reflexivity.
Qed.

(** X7.  A container that has been removed stays removed: after a call
    with a total that is not greater than 0, every later call for the same
    task, whatever its arguments, changes nothing. *)
Theorem updateProgressBar_after_removal
    (taskId : string) (p : number) (completed total : option number) (w : World)
    (p' : number) (completed' total' : option number) :
  gt_zero total = false ->
  let w1 := snd (updateProgressBar taskId p completed total w) in
  updateProgressBar taskId p' completed' total' w1 = (Ok tt, w1).
Proof.
  intros Hgt. cbv zeta. apply updateProgressBar_after_removal_helper, Hgt.
Qed.

Lemma updateProgressBar_after_removal_witness :
  let c := {| container_display := "block";
              container_fill :=
                Some {| fill_width := []; fill_backgroundColor := "" |};
              container_counter := Some [] |} in
  let w := with_document
             (with_cards {["t1" := {| card_container := Some c; card_text := None |}]}
                empty_document) empty_world in
  let w1 := snd (updateProgressBar "t1" Number.zero (Some Number.zero)
                   (Some Number.zero) w) in
  updateProgressBar "t1" (Number.of_Z 50) (Some (Number.of_Z 1))
    (Some (Number.of_Z 2)) w1
  = (Ok tt, w1).
Proof.
  cbv zeta.
  apply (updateProgressBar_after_removal "t1" Number.zero (Some Number.zero)
           (Some Number.zero)).
  reflexivity.
Defined.

(** X8.  [updateProgressBar] is idempotent: a second call with the same
    arguments changes nothing. *)
Theorem updateProgressBar_idempotent
    (taskId : string) (p : number) (completed total : option number) (w : World) :
  let w1 := snd (updateProgressBar taskId p completed total w) in
  updateProgressBar taskId p completed total w1 = (Ok tt, w1).
Proof.
  cbv zeta.
  destruct (gt_zero total) eqn:Hgt;
    [|apply updateProgressBar_after_removal_helper; exact Hgt].
  unfold updateProgressBar at 2 3.
  unfold bind, get_document, put_document, ret.
  destruct (cards (document w) !! taskId) as [[[c|] text]|] eqn:Hcard;
    rewrite ?Hgt; cbn [snd].
  - unfold updateProgressBar, bind, get_document, put_document.
    cbn [document with_document cards with_cards].
    rewrite lookup_insert_eq, Hgt.
    cbn [container_fill container_counter container_display].
    unfold with_document, with_cards.
    cbn [document cards overlay_display overlayDetails heap console network].
    rewrite insert_insert_eq.
    destruct (container_fill c), (container_counter c); reflexivity.
  - unfold updateProgressBar, bind, get_document. rewrite Hcard. reflexivity.
  - unfold updateProgressBar, bind, get_document. rewrite Hcard. reflexivity.
Qed.

Lemma updateProgressBar_shown
    (taskId : string) (p : number) (completed total : option number) (w : World)
    (c : Container) :
  gt_zero total = true ->
  container_of taskId w = Some c ->
  container_of taskId (snd (updateProgressBar taskId p completed total w))
  = Some (shown_container p completed total c).
Proof.
  intros Hgt. unfold container_of, shown_container.
  unfold updateProgressBar, bind, get_document, put_document, ret.
  destruct (cards (document w) !! taskId) as [[[c0|] text]|] eqn:Hcard;
    cbn [mbind option_bind card_container]; try discriminate.
  intros [= <-]. rewrite Hgt.
  cbn [snd document with_document cards with_cards].
  rewrite lookup_insert_eq. cbn [mbind option_bind card_container].
  destruct (container_fill c0), (container_counter c0); reflexivity.
Qed.

Lemma strict_eq_of_Z_zero (n : Z) :
  0 <= n < 2 ^ 53 ->
  Number.strict_eq (Number.of_Z n) Number.zero = bool_decide (n = 0).
Proof.
  intros [Hpos Hlt]. destruct n as [|p|p]; [reflexivity| |lia].
  rewrite (strict_eq_pos_zero p Hlt). reflexivity.
Qed.

(** X9.  The colour of the fill: for an integer percentage and a total
    greater than 0, the fill of the container gets the width
    [percentage%] and is gray when the percentage is 0 and blue
    otherwise. *)
Theorem updateProgressBar_fill_colour
    (taskId : string) (n : Z) (completed total : option number) (w : World)
    (c : Container) (f : Fill) :
  0 <= n < 2 ^ 53 ->
  gt_zero total = true ->
  container_of taskId w = Some c ->
  container_fill c = Some f ->
  container_of taskId
    (snd (updateProgressBar taskId (Number.of_Z n) completed total w))
  ≫= container_fill
  = Some {| fill_width := [Hole (VNum (Number.of_Z n)); Lit "%"];
            fill_backgroundColor := if decide (n = 0) then "lightgray" else "blue" |}.
Proof.
  intros Hn Hgt Hc Hf.
  rewrite (updateProgressBar_shown taskId _ completed total w c Hgt Hc).
  cbn [mbind option_bind shown_container container_fill]. rewrite Hf.
  cbn [fmap option_fmap option_map].
  rewrite (strict_eq_of_Z_zero n Hn).
  destruct (decide (n = 0)) as [E|E];
    [rewrite (bool_decide_eq_true_2 _ E)|rewrite (bool_decide_eq_false_2 _ E)];
    reflexivity.
Qed.

Lemma updateProgressBar_fill_colour_witness :
  container_of "t1"
    (snd (updateProgressBar "t1" (Number.of_Z 50) (Some (Number.of_Z 1))
            (Some (Number.of_Z 2)) (on_sample_board empty_world)))
  ≫= container_fill
  = Some {| fill_width := [Hole (VNum (Number.of_Z 50)); Lit "%"];
            fill_backgroundColor := "blue" |}.
Proof.
  apply (updateProgressBar_fill_colour "t1" 50 (Some (Number.of_Z 1))
           (Some (Number.of_Z 2)) (on_sample_board empty_world) sample_container
           {| fill_width := []; fill_backgroundColor := "" |});
    [split; [discriminate|reflexivity]|reflexivity..].
Defined.

(** X10.  The first declaration of [updateProgressBar] (lines 23-36)
    never removes a container and never touches the tasks or the store:
    with a fill element it keeps the display of the container and sets
    the fill; without one it logs a warning and leaves the document as it
    is. *)
Theorem updateProgressBar_shadowed_policy
    (taskId : string) (p : number) (w : World) :
  let w' := snd (updateProgressBar_shadowed taskId p w) in
  fst (updateProgressBar_shadowed taskId p w) = Ok tt
  /\ heap w' = heap w
  /\ network w' = network w
  /\ (forall c f,
        container_of taskId w = Some c -> container_fill c = Some f ->
        console w' = console w
        /\ container_of taskId w'
           = Some {| container_display := container_display c;
                     container_fill :=
                       Some {| fill_width := [Hole (VNum p); Lit "%"];
                               fill_backgroundColor :=
                                 if Number.strict_eq p Number.zero
                                 then "lightgray" else "blue" |};
                     container_counter := container_counter c |})
  /\ (container_of taskId w ≫= container_fill = None ->
      w' = with_console (console w ++ [progress_bar_not_found taskId]) w).
Proof.
  cbv zeta. unfold container_of.
  unfold updateProgressBar_shadowed, bind, get_document, put_document,
    console_warn, ret.
  destruct (cards (document w) !! taskId) as [[[c|] text]|] eqn:Hcard;
    cbn [mbind option_bind card_container].
  - destruct (container_fill c) as [f|] eqn:Hf;
      cbn [fst snd heap network console document with_document with_console
           cards with_cards].
    + rewrite lookup_insert_eq. cbn [mbind option_bind card_container].
      split; [reflexivity|]. split; [reflexivity|]. split; [reflexivity|].
      split; [|discriminate].
      intros c0 f0 [= <-] _. split; reflexivity.
    + split; [reflexivity|]. split; [reflexivity|]. split; [reflexivity|].
      split; [|reflexivity].
      intros c0 f0 [= <-] Hf0. congruence.
  - cbn [fst snd heap network].
    split; [reflexivity|]. split; [reflexivity|]. split; [reflexivity|].
    split; [discriminate|reflexivity].
  - cbn [fst snd heap network].
    split; [reflexivity|]. split; [reflexivity|]. split; [reflexivity|].
    split; [discriminate|reflexivity].
Qed.

(** *** The toggles, further *)

Section Toggles.

Variable TASK_URL : string.
Variable findTaskInData : string -> option loc.
Variable getBoardOverlayTemplate : string -> Task -> string.
Variable store_outcome : list Call -> Call -> Outcome.

(** X11.  A toggle by [toggleSubtaskCompletion] of a task that is not
    found, or that has no subtask array, does nothing at all, whatever the
    index: the promise is fulfilled, nothing is mutated, sent or logged. *)
Theorem toggleSubtaskCompletion_nothing_to_toggle
    (taskId : string) (i : Z) (w : World) :
  (findTaskInData taskId = None
   \/ exists task t,
       findTaskInData taskId = Some task
       /\ heap w !! task = Some t
       /\ task_subtasks t = None) ->
  toggleSubtaskCompletion TASK_URL findTaskInData getBoardOverlayTemplate
    store_outcome taskId i w
  = (Ok tt, w).
Proof.
  unfold toggleSubtaskCompletion.
  intros [Hnone|(task & t & Hfind & Hheap & Hsub)].
  - rewrite Hnone. reflexivity.
  - rewrite Hfind, Hheap, Hsub. reflexivity.
Qed.

(** X12.  Every toggle by [toggleSubtaskCompletion] of an index in range
    sends exactly one request, whether the store accepts it or not: a PUT
    to [TASK_URL/category/taskId/subtasks.json] whose body is the whole
    subtask array as the task holds it after the toggle. *)
Theorem toggleSubtaskCompletion_request
    (taskId : string) (i : Z) (w : World)
    (task : loc) (t : Task) (subtasks : list object) (subtask : object) :
  findTaskInData taskId = Some task ->
  heap w !! task = Some t ->
  task_subtasks t = Some subtasks ->
  array_get subtasks i = Some subtask ->
  let w' := snd (toggleSubtaskCompletion TASK_URL findTaskInData
                   getBoardOverlayTemplate store_outcome taskId i w) in
  exists subtasks',
    (heap w' !! task ≫= task_subtasks) = Some subtasks'
    /\ network w'
       = network w
         ++ [FetchCall
               {| req_url :=
                    TASK_URL +:+ "/" +:+ task_category t +:+ "/" +:+ taskId
                      +:+ "/subtasks.json";
                  req_method := "PUT";
                  req_headers := [("Content-Type", "application/json")];
                  req_body := VArr (map VObj subtasks') |}].
Proof.
  intros Hfind Hheap Hsub Hget. cbv zeta.
  pose proof (toggleSubtaskCompletion_in_range TASK_URL findTaskInData
                getBoardOverlayTemplate store_outcome taskId i w task t subtasks
                subtask Hfind Hheap Hsub Hget) as H.
  cbv zeta in H. exists (toggle_at i subtasks).
  destruct (store_outcome _ _) as [e|]; [|destruct H as [d H]];
    rewrite H; cbn [snd heap network]; rewrite lookup_insert_eq;
    split; reflexivity.
Qed.

Lemma gt_zero_of_pos (n : Z) :
  0 < n < 2 ^ 53 -> gt_zero (Some (Number.of_Z n)) = true.
Proof.
  intros [Hpos Hlt]. destruct n as [|p|p]; try lia.
  destruct (of_Z_pos p Hlt) as (m & e & H & _).
  cbn [gt_zero]. rewrite H. reflexivity.
Qed.

Lemma array_get_length {A : Type} (a : list A) (i : Z) (x : A) :
  array_get a i = Some x -> (0 < length a)%nat.
Proof.
  intros H. apply array_get_Some in H as [_ H].
  apply lookup_lt_Some in H. lia.
Qed.

Lemma toggle_at_length (i : Z) (subtasks : list object) :
  length (toggle_at i subtasks) = length subtasks.
Proof.
  unfold toggle_at. destruct (array_get subtasks i); [apply length_insert|reflexivity].
Qed.

(** [toggleSubtaskCompletion] when the promise of the request is
    fulfilled: what is left to do is [progressBarfilling], with the counts
    of the array after the toggle. *)
Lemma toggleSubtaskCompletion_accepted
    (taskId : string) (i : Z) (w : World)
    (task : loc) (t : Task) (subtasks : list object) (subtask : object)
    (response : Response) :
  findTaskInData taskId = Some task ->
  heap w !! task = Some t ->
  task_subtasks t = Some subtasks ->
  array_get subtasks i = Some subtask ->
  store_outcome (network w)
    (FetchCall
       (subtasks_request TASK_URL taskId (task_category t) (toggle_at i subtasks)))
  = Fulfilled response ->
  toggleSubtaskCompletion TASK_URL findTaskInData getBoardOverlayTemplate
    store_outcome taskId i w
  = progressBarfilling getBoardOverlayTemplate taskId (task_category t)
      (computed_percentage (count_completed (toggle_at i subtasks))
         (Z.of_nat (length (toggle_at i subtasks))))
      (Number.of_Z (count_completed (toggle_at i subtasks)))
      (Number.of_Z (Z.of_nat (length (toggle_at i subtasks))))
      task
      {| heap := <[task := with_subtasks (toggle_at i subtasks) t]> (heap w);
         document := document w;
         console := console w;
         network :=
           network w
           ++ [FetchCall
                 (subtasks_request TASK_URL taskId (task_category t)
                    (toggle_at i subtasks))] |}.
Proof.
  intros Hfind Hheap Hsub Hget Hok.
  unfold toggleSubtaskCompletion.
  rewrite Hfind, Hheap, Hsub, Hget.
  assert (Hs : <[Z.to_nat i := obj_set "completed" (not_completed subtask) subtask]>
                 subtasks
               = toggle_at i subtasks).
  { unfold toggle_at. rewrite Hget. reflexivity. }
  rewrite Hs.
  change {| req_url := TASK_URL +:+ "/" +:+ task_category t +:+ "/" +:+ taskId
                         +:+ "/subtasks.json";
            req_method := "PUT";
            req_headers := [("Content-Type", "application/json")];
            req_body := VArr (map VObj (toggle_at i subtasks)) |}
    with (subtasks_request TASK_URL taskId (task_category t) (toggle_at i subtasks)).
  unfold bind, try_catch, write_subtasks, fetch, lift. cbn beta.
  rewrite Hheap. cbn [network with_heap with_network].
  rewrite filter_completed_objects, Hok, length_map.
  unfold computed_percentage, count_completed, with_network, with_heap.
  cbn [heap document console network].
  match goal with
  | |- _ = progressBarfilling _ ?a ?b ?c ?d ?e ?f ?w' =>
      destruct (progressBarfilling_document getBoardOverlayTemplate a b c d e f
                  (with_subtasks (toggle_at i subtasks) t) w') as [d' Hd]
  end.
  { apply lookup_insert_eq. }
  match type of Hd with
  | ?X = _ =>
      match goal with
      | |- (let (_, _) := ?P in _) = _ => change P with X
      end
  end.
  rewrite !Hd. reflexivity.
Qed.

Lemma updateOverlayIfVisible_result
    (category : string) (task : loc) (t : Task) (w : World) :
  heap w !! task = Some t ->
  updateOverlayIfVisible getBoardOverlayTemplate category task w
  = (Ok tt,
     if overlay_open (document w) then
       with_document
         {| cards := cards (document w);
            overlay_display := overlay_display (document w);
            overlayDetails := Some (getBoardOverlayTemplate category t) |} w
     else w).
Proof.
  intros Hheap.
  unfold updateOverlayIfVisible, overlay_open, bind, get_document, put_document,
    ret, read_task.
  destruct (overlay_display (document w)) as [display|]; [|reflexivity].
  destruct (decide (display = "block")) as [E|E].
  - rewrite (bool_decide_eq_true_2 _ E).
    destruct (overlayDetails (document w)); [|reflexivity].
    rewrite Hheap. reflexivity.
  - rewrite (bool_decide_eq_false_2 _ E).
    destruct (overlayDetails (document w)); reflexivity.
Qed.

(** [progressBarfilling] on a task object: the progress bar as
    [updateProgressBar] leaves it, then the detail view if it is open. *)
Lemma progressBarfilling_result
    (taskId category : string) (p completed total : number)
    (task : loc) (t : Task) (w : World) :
  heap w !! task = Some t ->
  let w1 := snd (updateProgressBar taskId p (Some completed) (Some total) w) in
  progressBarfilling getBoardOverlayTemplate taskId category p completed total
    task w
  = (Ok tt,
     if overlay_open (document w) then
       with_document
         {| cards := cards (document w1);
            overlay_display := overlay_display (document w);
            overlayDetails := Some (getBoardOverlayTemplate category t) |} w1
     else w1).
Proof.
  intros Hheap. cbv zeta.
  pose proof (updateProgressBar_ok taskId p (Some completed) (Some total) w) as Hok.
  pose proof (updateProgressBar_untouched taskId p (Some completed) (Some total) w)
    as (Hh & _ & _ & Hdisplay & Hdetails & _).
  unfold progressBarfilling, bind.
  destruct (updateProgressBar taskId p (Some completed) (Some total) w) as [r w1].
  cbn [fst snd] in *. subst r.
  rewrite (updateOverlayIfVisible_result category task t w1) by congruence.
  unfold overlay_open. rewrite Hdisplay, Hdetails. reflexivity.
Qed.

Lemma toggleSubtaskCompletion_container
    (taskId : string) (i : Z) (w : World)
    (task : loc) (t : Task) (subtasks : list object) (subtask : object)
    (c : Container) (response : Response) :
  findTaskInData taskId = Some task ->
  heap w !! task = Some t ->
  task_subtasks t = Some subtasks ->
  array_get subtasks i = Some subtask ->
  Z.of_nat (length subtasks) < 2 ^ 53 ->
  store_outcome (network w)
    (FetchCall
       (subtasks_request TASK_URL taskId (task_category t) (toggle_at i subtasks)))
  = Fulfilled response ->
  container_of taskId w = Some c ->
  let subtasks' := toggle_at i subtasks in
  let w' := snd (toggleSubtaskCompletion TASK_URL findTaskInData
                   getBoardOverlayTemplate store_outcome taskId i w) in
  console w' = console w
  /\ container_of taskId w'
     = Some (shown_container
               (computed_percentage (count_completed subtasks')
                  (Z.of_nat (length subtasks')))
               (Some (Number.of_Z (count_completed subtasks')))
               (Some (Number.of_Z (Z.of_nat (length subtasks'))))
               c).
Proof.
  intros Hfind Hheap Hsub Hget Hlen Hok Hc. cbv zeta.
  rewrite (toggleSubtaskCompletion_accepted taskId i w task t subtasks subtask
             response Hfind Hheap Hsub Hget Hok).
  set (w1 := {| heap := _; document := document w; console := console w;
                network := _ |}).
  rewrite (progressBarfilling_result taskId (task_category t) _ _ _ task
             (with_subtasks (toggle_at i subtasks) t) w1)
    by apply lookup_insert_eq.
  cbv zeta. cbn [snd].
  assert (Hgt : gt_zero (Some (Number.of_Z (Z.of_nat (length (toggle_at i subtasks)))))
                = true).
  { apply gt_zero_of_pos. rewrite toggle_at_length.
    pose proof (array_get_length subtasks i subtask Hget). lia. }
  assert (Hc1 : container_of taskId w1 = Some c) by exact Hc.
  pose proof (updateProgressBar_shown taskId
                (computed_percentage (count_completed (toggle_at i subtasks))
                   (Z.of_nat (length (toggle_at i subtasks))))
                (Some (Number.of_Z (count_completed (toggle_at i subtasks))))
                (Some (Number.of_Z (Z.of_nat (length (toggle_at i subtasks)))))
                w1 c Hgt Hc1) as Hshown.
  pose proof (updateProgressBar_untouched taskId
                (computed_percentage (count_completed (toggle_at i subtasks))
                   (Z.of_nat (length (toggle_at i subtasks))))
                (Some (Number.of_Z (count_completed (toggle_at i subtasks))))
                (Some (Number.of_Z (Z.of_nat (length (toggle_at i subtasks)))))
                w1) as (_ & Hconsole & _).
  destruct (overlay_open (document w1)); split;
    try exact Hshown; try exact Hconsole.
Qed.

(** X13.  After a toggle by [toggleSubtaskCompletion] whose request the
    store answers (the promise of [fetch] is fulfilled, as it is when the
    store accepts the write), the progress bar of the task, if it has a
    container, is displayed with the counts of the array after the
    toggle: the width is their percentage and the counter reads
    [completed/total Subtasks].  Nothing is logged. *)
Theorem toggleSubtaskCompletion_shows_counts
    (taskId : string) (i : Z) (w : World)
    (task : loc) (t : Task) (subtasks : list object) (subtask : object)
    (c : Container) (response : Response) :
  findTaskInData taskId = Some task ->
  heap w !! task = Some t ->
  task_subtasks t = Some subtasks ->
  array_get subtasks i = Some subtask ->
  Z.of_nat (length subtasks) < 2 ^ 53 ->
  store_outcome (network w)
    (FetchCall
       (subtasks_request TASK_URL taskId (task_category t) (toggle_at i subtasks)))
  = Fulfilled response ->
  container_of taskId w = Some c ->
  let subtasks' := toggle_at i subtasks in
  let w' := snd (toggleSubtaskCompletion TASK_URL findTaskInData
                   getBoardOverlayTemplate store_outcome taskId i w) in
  console w' = console w
  /\ container_of taskId w'
     = Some (shown_container
               (computed_percentage (count_completed subtasks')
                  (Z.of_nat (length subtasks')))
               (Some (Number.of_Z (count_completed subtasks')))
               (Some (Number.of_Z (Z.of_nat (length subtasks'))))
               c).
Proof.
  exact (toggleSubtaskCompletion_container taskId i w task t subtasks subtask c
           response).
Qed.

(** X14.  After a toggle by [toggleSubtaskCompletion] whose request the
    store answers (the promise of [fetch] is fulfilled, as it is when the
    store accepts the write), the detail view, if it is open, holds the
    markup of the task as it is after the toggle; if it is not open it is
    left as it was. *)
Theorem toggleSubtaskCompletion_renders_overlay
    (taskId : string) (i : Z) (w : World)
    (task : loc) (t : Task) (subtasks : list object) (subtask : object)
    (response : Response) :
  findTaskInData taskId = Some task ->
  heap w !! task = Some t ->
  task_subtasks t = Some subtasks ->
  array_get subtasks i = Some subtask ->
  store_outcome (network w)
    (FetchCall
       (subtasks_request TASK_URL taskId (task_category t) (toggle_at i subtasks)))
  = Fulfilled response ->
  let w' := snd (toggleSubtaskCompletion TASK_URL findTaskInData
                   getBoardOverlayTemplate store_outcome taskId i w) in
  overlay_display (document w') = overlay_display (document w)
  /\ overlayDetails (document w')
     = if overlay_open (document w) then
         Some (getBoardOverlayTemplate (task_category t)
                 (with_subtasks (toggle_at i subtasks) t))
       else overlayDetails (document w).
Proof.
  intros Hfind Hheap Hsub Hget Hok. cbv zeta.
  rewrite (toggleSubtaskCompletion_accepted taskId i w task t subtasks subtask
             response Hfind Hheap Hsub Hget Hok).
  set (w1 := {| heap := _; document := document w; console := console w;
                network := _ |}).
  rewrite (progressBarfilling_result taskId (task_category t) _ _ _ task
             (with_subtasks (toggle_at i subtasks) t) w1)
    by apply lookup_insert_eq.
  cbv zeta. cbn [snd].
  match goal with
  | |- context [updateProgressBar ?a ?b ?c ?d w1] =>
      pose proof (updateProgressBar_untouched a b c d w1)
        as (_ & _ & _ & Hdisplay & Hdetails & _)
  end.
  change (document w1) with (document w) in *.
  destruct (overlay_open (document w)); [split; reflexivity|].
  split; [exact Hdisplay|exact Hdetails].
Qed.

Lemma array_get_None {A : Type} (a : list A) (i : Z) :
  array_get a i = None <-> i < 0 \/ Z.of_nat (length a) <= i.
Proof.
  unfold array_get. destruct (0 <=? i) eqn:E.
  - apply Z.leb_le in E. rewrite lookup_ge_None. lia.
  - apply Z.leb_gt in E. split; [lia|reflexivity].
Qed.

(** X15.  [updateSubtaskState] has a guard: for a task without subtask
    array, and for an index that is negative or not below the length of
    the array, it logs [Subtask with index i not found.] with
    [console.error] and does nothing else: no mutation, no call to the
    store, no change of the document, no exception. *)
Theorem updateSubtaskState_not_found (i : Z) (w : World) (task : loc) (t : Task) :
  heap w !! task = Some t ->
  (task_subtasks t = None
   \/ exists subtasks,
       task_subtasks t = Some subtasks
       /\ (i < 0 \/ Z.of_nat (length subtasks) <= i)) ->
  updateSubtaskState store_outcome task i w
  = (Ok tt, with_console (console w ++ [subtask_not_found i]) w).
Proof.
  intros Hheap Hcase.
  apply (updateSubtaskState_out_of_range store_outcome i w task t Hheap).
  destruct Hcase as [->|(subtasks & -> & Hi)].
  - apply array_get_nil.
  - apply array_get_None, Hi.
Qed.

(** X16.  Every toggle by [updateSubtaskState] of an index in range calls
    [syncSubtasksWithFirebase] exactly once, with the identifier and the
    category of the task and the whole subtask array as the task holds it
    after the toggle. *)
Theorem updateSubtaskState_sync
    (i : Z) (w : World) (task : loc) (t : Task)
    (subtasks : list object) (subtask : object) :
  heap w !! task = Some t ->
  task_subtasks t = Some subtasks ->
  array_get subtasks i = Some subtask ->
  let w' := snd (updateSubtaskState store_outcome task i w) in
  exists subtasks',
    (heap w' !! task ≫= task_subtasks) = Some subtasks'
    /\ network w'
       = network w
         ++ [SyncCall (task_id t) (VArr (map VObj subtasks')) (task_category t)].
Proof.
  intros Hheap Hsub Hget. cbv zeta.
  destruct (updateSubtaskState_in_range store_outcome i w task t subtasks subtask
              Hheap Hsub Hget) as (d & c & ->).
  exists (toggle_at i subtasks). cbn [snd heap network].
  rewrite lookup_insert_eq. split; reflexivity.
Qed.

(** X17.  A toggle by [updateSubtaskState] of an index in range removes
    the progress bar of the task: [updateSubtaskProgress] calls
    [updateProgressBar] with two arguments, the total is [undefined]
    there, and the task has no container afterwards, whatever the number
    of its subtasks. *)
Theorem updateSubtaskState_loses_progress_bar
    (i : Z) (w : World) (task : loc) (t : Task)
    (subtasks : list object) (subtask : object) :
  heap w !! task = Some t ->
  task_subtasks t = Some subtasks ->
  array_get subtasks i = Some subtask ->
  container_of (task_id t) (snd (updateSubtaskState store_outcome task i w)) = None.
Proof.
  exact (updateSubtaskState_removes_container store_outcome i w task t subtasks
           subtask).
Qed.

(** X18.  The two toggles make the same mutation: on the same task and
    index in range, [toggleSubtaskCompletion] and [updateSubtaskState]
    leave the same heap of tasks, whatever the store answers. *)
Theorem toggles_agree_on_tasks
    (taskId : string) (i : Z) (w : World)
    (task : loc) (t : Task) (subtasks : list object) (subtask : object) :
  findTaskInData taskId = Some task ->
  heap w !! task = Some t ->
  task_subtasks t = Some subtasks ->
  array_get subtasks i = Some subtask ->
  heap (snd (toggleSubtaskCompletion TASK_URL findTaskInData getBoardOverlayTemplate
               store_outcome taskId i w))
  = heap (snd (updateSubtaskState store_outcome task i w)).
Proof.
  intros Hfind Hheap Hsub Hget.
  rewrite (toggleSubtaskCompletion_heap TASK_URL findTaskInData
             getBoardOverlayTemplate store_outcome taskId i w task t subtasks
             subtask Hfind Hheap Hsub Hget).
  rewrite (updateSubtaskState_heap store_outcome i w task t subtasks subtask
             Hheap Hsub Hget).
  reflexivity.
Qed.

(** **** Sequences of toggles *)

Lemma toggle_at_get_ne (i j : Z) (subtasks : list object) :
  i <> j -> array_get (toggle_at i subtasks) j = array_get subtasks j.
Proof.
  intros Hne. unfold toggle_at.
  destruct (array_get subtasks i) as [si|] eqn:Hi; [|reflexivity].
  apply array_get_Some in Hi as [Hpos _].
  unfold array_get. destruct (0 <=? j) eqn:Hj; [|reflexivity].
  apply Z.leb_le in Hj. apply list_lookup_insert_ne. lia.
Qed.

Lemma toggle_at_commute (i j : Z) (subtasks : list object) :
  i <> j ->
  toggle_at j (toggle_at i subtasks) = toggle_at i (toggle_at j subtasks).
Proof.
  intros Hne.
  unfold toggle_at at 1 3.
  rewrite (toggle_at_get_ne i j subtasks Hne).
  rewrite (toggle_at_get_ne j i subtasks) by congruence.
  destruct (array_get subtasks i) as [si|] eqn:Hi;
    destruct (array_get subtasks j) as [sj|] eqn:Hj;
    unfold toggle_at; rewrite ?Hi, ?Hj; try reflexivity.
  apply array_get_Some in Hi as [Hi0 _]. apply array_get_Some in Hj as [Hj0 _].
  apply list_insert_insert_ne. lia.
Qed.

Lemma toggle_at_thrice (i : Z) (subtasks : list object) :
  toggle_at i (toggle_at i (toggle_at i subtasks)) = toggle_at i subtasks.
Proof.
  destruct (array_get subtasks i) as [si|] eqn:Hi.
  - apply (toggle_at_involutive i (toggle_at i subtasks)
             (obj_set "completed" (not_completed si) si)
             (negb (ToBoolean (obj_get "completed" si)))).
    + apply toggle_at_get, Hi.
    + apply obj_get_set_eq.
  - assert (H : toggle_at i subtasks = subtasks)
      by (unfold toggle_at; rewrite Hi; reflexivity).
    rewrite !H. reflexivity.
Qed.

(** The number of completed subtasks after a toggle: one more when the
    subtask was not completed, one less when it was. *)
Lemma toggle_at_count (i : Z) (subtasks : list object) (subtask : object) :
  array_get subtasks i = Some subtask ->
  count_completed (toggle_at i subtasks)
  = count_completed subtasks
    + (if ToBoolean (obj_get "completed" subtask) then -1 else 1).
Proof.
  intros Hget. unfold toggle_at. rewrite Hget.
  apply array_get_Some in Hget as [_ Hget].
  unfold count_completed.
  rewrite insert_take_drop by (eapply lookup_lt_Some, Hget).
  rewrite <- (take_drop_middle subtasks (Z.to_nat i) subtask Hget) at 3.
  rewrite !filter_app, !filter_cons, !length_app.
  rewrite obj_get_set_eq. unfold not_completed. cbn [ToBoolean].
  destruct (ToBoolean (obj_get "completed" subtask)) eqn:Hc; cbn [negb];
    repeat (destruct (decide _) as [?|?]; try congruence);
    cbn [length]; lia.
Qed.

Section Runs.

(** A toggle, seen as a change of the world, of which only the effect on
    the heap of tasks is known. *)
Variable task : loc.
Variable run : Z -> World -> World.
Hypothesis run_heap :
  forall i w t subtasks subtask,
    heap w !! task = Some t ->
    task_subtasks t = Some subtasks ->
    array_get subtasks i = Some subtask ->
    heap (run i w) = <[task := with_subtasks (toggle_at i subtasks) t]> (heap w).

Lemma run_task (i : Z) (w : World) (t : Task) (subtasks : list object)
    (subtask : object) :
  heap w !! task = Some t ->
  task_subtasks t = Some subtasks ->
  array_get subtasks i = Some subtask ->
  heap (run i w) !! task = Some (with_subtasks (toggle_at i subtasks) t).
Proof.
  intros Hheap Hsub Hget.
  rewrite (run_heap i w t subtasks subtask Hheap Hsub Hget).
  apply lookup_insert_eq.
Qed.

Lemma run_twice (i j : Z) (w : World) (t : Task) (subtasks : list object)
    (si sj : object) :
  heap w !! task = Some t ->
  task_subtasks t = Some subtasks ->
  array_get subtasks i = Some si ->
  array_get (toggle_at i subtasks) j = Some sj ->
  heap (run j (run i w))
  = <[task := with_subtasks (toggle_at j (toggle_at i subtasks)) t]> (heap w).
Proof.
  intros Hheap Hsub Hi Hj.
  rewrite (run_heap j (run i w) (with_subtasks (toggle_at i subtasks) t)
             (toggle_at i subtasks) sj
             (run_task i w t subtasks si Hheap Hsub Hi) eq_refl Hj).
  rewrite (run_heap i w t subtasks si Hheap Hsub Hi).
  rewrite insert_insert_eq, with_subtasks_twice. reflexivity.
Qed.

Lemma run_commute (i j : Z) (w : World) (t : Task) (subtasks : list object)
    (si sj : object) :
  i <> j ->
  heap w !! task = Some t ->
  task_subtasks t = Some subtasks ->
  array_get subtasks i = Some si ->
  array_get subtasks j = Some sj ->
  heap (run j (run i w)) = heap (run i (run j w)).
Proof.
  intros Hne Hheap Hsub Hi Hj.
  rewrite (run_twice i j w t subtasks si sj Hheap Hsub Hi)
    by (rewrite toggle_at_get_ne by exact Hne; exact Hj).
  rewrite (run_twice j i w t subtasks sj si Hheap Hsub Hj)
    by (rewrite toggle_at_get_ne by congruence; exact Hi).
  rewrite (toggle_at_commute i j subtasks Hne). reflexivity.
Qed.

Lemma run_thrice (i : Z) (w : World) (t : Task) (subtasks : list object)
    (subtask : object) :
  heap w !! task = Some t ->
  task_subtasks t = Some subtasks ->
  array_get subtasks i = Some subtask ->
  heap (run i (run i (run i w))) = heap (run i w).
Proof.
  intros Hheap Hsub Hget.
  pose proof (toggle_at_get i subtasks subtask Hget) as Hget1.
  pose proof (run_task i w t subtasks subtask Hheap Hsub Hget) as Hheap1.
  rewrite (run_twice i i (run i w) (with_subtasks (toggle_at i subtasks) t)
             (toggle_at i subtasks) _ _ Hheap1 eq_refl Hget1
             (toggle_at_get i _ _ Hget1)).
  rewrite toggle_at_thrice, with_subtasks_twice.
  apply insert_id, Hheap1.
Qed.

End Runs.

(** X19.  Toggles of two different indices in range commute: in either
    order they leave the same heap of tasks.  This holds for
    [toggleSubtaskCompletion] and for [updateSubtaskState], whatever the
    store answers. *)
Theorem toggles_commute
    (taskId : string) (i j : Z) (w : World)
    (task : loc) (t : Task) (subtasks : list object) (si sj : object) :
  i <> j ->
  findTaskInData taskId = Some task ->
  heap w !! task = Some t ->
  task_subtasks t = Some subtasks ->
  array_get subtasks i = Some si ->
  array_get subtasks j = Some sj ->
  let toggle k w :=
    snd (toggleSubtaskCompletion TASK_URL findTaskInData getBoardOverlayTemplate
           store_outcome taskId k w) in
  let update k w := snd (updateSubtaskState store_outcome task k w) in
  heap (toggle j (toggle i w)) = heap (toggle i (toggle j w))
  /\ heap (update j (update i w)) = heap (update i (update j w)).
Proof.
  intros Hne Hfind Hheap Hsub Hi Hj toggle update. split.
  - apply (run_commute task toggle) with (t := t) (subtasks := subtasks)
                                         (si := si) (sj := sj); try assumption.
    intros k w0 t0 s0 st0. unfold toggle.
    apply toggleSubtaskCompletion_heap, Hfind.
  - apply (run_commute task update) with (t := t) (subtasks := subtasks)
                                         (si := si) (sj := sj); try assumption.
    intros k w0 t0 s0 st0. unfold update. apply updateSubtaskState_heap.
Qed.

(** X20.  Whatever [completed] holds at first, a boolean or not, or
    nothing, three toggles of an index in range leave the heap of tasks as
    one toggle does: after the first toggle [completed] is a boolean, and
    from then on two toggles cancel. *)
Theorem toggle_thrice
    (taskId : string) (i : Z) (w : World)
    (task : loc) (t : Task) (subtasks : list object) (subtask : object) :
  findTaskInData taskId = Some task ->
  heap w !! task = Some t ->
  task_subtasks t = Some subtasks ->
  array_get subtasks i = Some subtask ->
  let toggle w :=
    snd (toggleSubtaskCompletion TASK_URL findTaskInData getBoardOverlayTemplate
           store_outcome taskId i w) in
  let update w := snd (updateSubtaskState store_outcome task i w) in
  heap (toggle (toggle (toggle w))) = heap (toggle w)
  /\ heap (update (update (update w))) = heap (update w).
Proof.
  intros Hfind Hheap Hsub Hget toggle update. split.
  - apply (run_thrice task
             (fun k w =>
                snd (toggleSubtaskCompletion TASK_URL findTaskInData
                       getBoardOverlayTemplate store_outcome taskId k w)))
      with (t := t) (subtasks := subtasks) (subtask := subtask); try assumption.
    intros k w0 t0 s0 st0. apply toggleSubtaskCompletion_heap, Hfind.
  - apply (run_thrice task
             (fun k w => snd (updateSubtaskState store_outcome task k w)))
      with (t := t) (subtasks := subtasks) (subtask := subtask); try assumption.
    intros k w0 t0 s0 st0. apply updateSubtaskState_heap.
Qed.

(** X21.  A toggle of an index in range changes the number of completed
    subtasks of the task by exactly one: one more when [completed] of the
    subtask was falsy, one less when it was truthy.  This holds for both
    toggles. *)
Theorem toggle_changes_count_by_one
    (taskId : string) (i : Z) (w : World)
    (task : loc) (t : Task) (subtasks : list object) (subtask : object) :
  findTaskInData taskId = Some task ->
  heap w !! task = Some t ->
  task_subtasks t = Some subtasks ->
  array_get subtasks i = Some subtask ->
  let step := if ToBoolean (obj_get "completed" subtask) then -1 else 1 in
  (exists subtasks',
      (heap (snd (toggleSubtaskCompletion TASK_URL findTaskInData
                    getBoardOverlayTemplate store_outcome taskId i w))
         !! task ≫= task_subtasks)
      = Some subtasks'
      /\ count_completed subtasks' = count_completed subtasks + step)
  /\ (exists subtasks',
        (heap (snd (updateSubtaskState store_outcome task i w)) !! task
           ≫= task_subtasks)
        = Some subtasks'
        /\ count_completed subtasks' = count_completed subtasks + step).
Proof.
  intros Hfind Hheap Hsub Hget. cbv zeta.
  rewrite (toggleSubtaskCompletion_heap TASK_URL findTaskInData
             getBoardOverlayTemplate store_outcome taskId i w task t subtasks
             subtask Hfind Hheap Hsub Hget).
  rewrite (updateSubtaskState_heap store_outcome i w task t subtasks subtask
             Hheap Hsub Hget).
  rewrite lookup_insert_eq. cbn [mbind option_bind with_subtasks task_subtasks].
  split; exists (toggle_at i subtasks);
    (split; [reflexivity|apply toggle_at_count, Hget]).
Qed.

(** X22.  After a toggle by [toggleSubtaskCompletion] whose request the
    store answers (the promise of [fetch] is fulfilled, as it is when the
    store accepts the write), the fill of the progress bar has the width
    [n%] for an integer [n] between 0 and 100, and is gray when [n] is 0
    and blue otherwise. *)
Theorem toggleSubtaskCompletion_width
    (taskId : string) (i : Z) (w : World)
    (task : loc) (t : Task) (subtasks : list object) (subtask : object)
    (c : Container) (f : Fill) (response : Response) :
  findTaskInData taskId = Some task ->
  heap w !! task = Some t ->
  task_subtasks t = Some subtasks ->
  array_get subtasks i = Some subtask ->
  Z.of_nat (length subtasks) < 2 ^ 53 ->
  store_outcome (network w)
    (FetchCall
       (subtasks_request TASK_URL taskId (task_category t) (toggle_at i subtasks)))
  = Fulfilled response ->
  container_of taskId w = Some c ->
  container_fill c = Some f ->
  exists n : Z,
    0 <= n <= 100
    /\ container_of taskId
         (snd (toggleSubtaskCompletion TASK_URL findTaskInData
                 getBoardOverlayTemplate store_outcome taskId i w))
       ≫= container_fill
       = Some {| fill_width := [Hole (VNum (Number.of_Z n)); Lit "%"];
                 fill_backgroundColor :=
                   if decide (n = 0) then "lightgray" else "blue" |}.
Proof.
  intros Hfind Hheap Hsub Hget Hlen Hok Hc Hf.
  destruct (toggleSubtaskCompletion_container taskId i w task t subtasks subtask c
              response Hfind Hheap Hsub Hget Hlen Hok Hc) as [_ Hshown].
  cbv zeta in Hshown. rewrite Hshown.
  destruct (computed_percentage_range (count_completed (toggle_at i subtasks))
              (Z.of_nat (length (toggle_at i subtasks))))
    as (n & Hn & Hrange).
  { apply count_completed_bounds. }
  { rewrite toggle_at_length. exact Hlen. }
  exists n. split; [exact Hrange|].
  cbn [mbind option_bind shown_container container_fill]. rewrite Hf, Hn.
  cbn [fmap option_fmap option_map].
  rewrite (strict_eq_of_Z_zero n) by lia.
  destruct (decide (n = 0)) as [E|E];
    [rewrite (bool_decide_eq_true_2 _ E)|rewrite (bool_decide_eq_false_2 _ E)];
    reflexivity.
Qed.

End Toggles.

Lemma toggleSubtaskCompletion_nothing_to_toggle_witness :
  toggleSubtaskCompletion sample_url (fun _ => None) no_markup store_up "t9" 0
    two_open
  = (Ok tt, two_open).
Proof.
  apply toggleSubtaskCompletion_nothing_to_toggle. left. reflexivity.
Defined.

Lemma toggleSubtaskCompletion_request_witness :
  exists subtasks',
    (heap (snd (toggleSubtaskCompletion sample_url find_first no_markup store_down
                  "t1" 0 two_open)) !! 1%positive ≫= task_subtasks)
    = Some subtasks'
    /\ network (snd (toggleSubtaskCompletion sample_url find_first no_markup
                      store_down "t1" 0 two_open))
       = [] ++ [FetchCall
                  {| req_url :=
                       sample_url +:+ "/" +:+ "todo" +:+ "/" +:+ "t1"
                         +:+ "/subtasks.json";
                     req_method := "PUT";
                     req_headers := [("Content-Type", "application/json")];
                     req_body := VArr (map VObj subtasks') |}].
Proof.
  exact (toggleSubtaskCompletion_request sample_url find_first no_markup store_down
           "t1" 0 two_open 1%positive (sample_task (subtasks_of 2 false))
           (subtasks_of 2 false) [("completed", VBool false)]
           eq_refl eq_refl eq_refl eq_refl).
Defined.

Lemma toggleSubtaskCompletion_shows_counts_witness :
  let w' := snd (toggleSubtaskCompletion sample_url find_first no_markup store_up
                   "t1" 1 (on_sample_board two_open)) in
  console w' = []
  /\ container_of "t1" w'
     = Some {| container_display := "block";
               container_fill :=
                 Some {| fill_width := [Hole (VNum (Number.of_Z 50)); Lit "%"];
                         fill_backgroundColor := "blue" |};
               container_counter :=
                 Some [Hole (VNum (Number.of_Z 1)); Lit "/";
                       Hole (VNum (Number.of_Z 2)); Lit " Subtasks"] |}.
Proof.
  exact (toggleSubtaskCompletion_shows_counts sample_url find_first no_markup
           store_up "t1" 1 (on_sample_board two_open) 1%positive
           (sample_task (subtasks_of 2 false)) (subtasks_of 2 false)
           [("completed", VBool false)] sample_container {| res_status := 200 |}
           eq_refl eq_refl eq_refl eq_refl eq_refl eq_refl eq_refl).
Defined.

Lemma toggleSubtaskCompletion_renders_overlay_witness :
  let w' := snd (toggleSubtaskCompletion sample_url find_first
                   (fun category t => category +:+ ":" +:+ task_id t) store_up
                   "t1" 1 (on_sample_board two_open)) in
  overlay_display (document w') = Some "block"
  /\ overlayDetails (document w') = Some "todo:t1".
Proof.
  exact (toggleSubtaskCompletion_renders_overlay sample_url find_first
           (fun category t => category +:+ ":" +:+ task_id t) store_up
           "t1" 1 (on_sample_board two_open) 1%positive
           (sample_task (subtasks_of 2 false)) (subtasks_of 2 false)
           [("completed", VBool false)] {| res_status := 200 |}
           eq_refl eq_refl eq_refl eq_refl eq_refl).
Defined.

Lemma updateSubtaskState_not_found_witness :
  updateSubtaskState store_up 1%positive 2 two_open
  = (Ok tt, with_console [subtask_not_found 2] two_open)
  /\ updateSubtaskState store_up 1%positive (-1) two_open
     = (Ok tt, with_console [subtask_not_found (-1)] two_open).
Proof.
  split.
  - apply (updateSubtaskState_not_found store_up 2 two_open 1%positive
             (sample_task (subtasks_of 2 false)) eq_refl).
    right. exists (subtasks_of 2 false). split; [reflexivity|].
    right. cbn. lia.
  - apply (updateSubtaskState_not_found store_up (-1) two_open 1%positive
             (sample_task (subtasks_of 2 false)) eq_refl).
    right. exists (subtasks_of 2 false). split; [reflexivity|].
    left. lia.
Defined.

Lemma updateSubtaskState_sync_witness :
  exists subtasks',
    (heap (snd (updateSubtaskState store_down 1%positive 0 two_open)) !! 1%positive
       ≫= task_subtasks)
    = Some subtasks'
    /\ network (snd (updateSubtaskState store_down 1%positive 0 two_open))
       = [] ++ [SyncCall "t1" (VArr (map VObj subtasks')) "todo"].
Proof.
  exact (updateSubtaskState_sync store_down 0 two_open 1%positive
           (sample_task (subtasks_of 2 false)) (subtasks_of 2 false)
           [("completed", VBool false)] eq_refl eq_refl eq_refl).
Defined.

Lemma updateSubtaskState_loses_progress_bar_witness :
  container_of "t1" (on_sample_board two_open) = Some sample_container
  /\ container_of "t1"
       (snd (updateSubtaskState store_up 1%positive 0 (on_sample_board two_open)))
     = None.
Proof.
  split; [reflexivity|].
  exact (updateSubtaskState_loses_progress_bar store_up 0 (on_sample_board two_open)
           1%positive (sample_task (subtasks_of 2 false)) (subtasks_of 2 false)
           [("completed", VBool false)] eq_refl eq_refl eq_refl).
Defined.

Lemma toggles_agree_on_tasks_witness :
  heap (snd (toggleSubtaskCompletion sample_url find_first no_markup store_down
               "t1" 0 two_open))
  = heap (snd (updateSubtaskState store_down 1%positive 0 two_open)).
Proof.
  exact (toggles_agree_on_tasks sample_url find_first no_markup store_down
           "t1" 0 two_open 1%positive (sample_task (subtasks_of 2 false))
           (subtasks_of 2 false) [("completed", VBool false)]
           eq_refl eq_refl eq_refl eq_refl).
Defined.

Lemma toggles_commute_witness :
  let toggle k w :=
    snd (toggleSubtaskCompletion sample_url find_first no_markup store_up "t1" k w) in
  let update k w := snd (updateSubtaskState store_up 1%positive k w) in
  heap (toggle 1 (toggle 0 two_open)) = heap (toggle 0 (toggle 1 two_open))
  /\ heap (update 1 (update 0 two_open)) = heap (update 0 (update 1 two_open)).
Proof.
  exact (toggles_commute sample_url find_first no_markup store_up
           "t1" 0 1 two_open 1%positive (sample_task (subtasks_of 2 false))
           (subtasks_of 2 false) [("completed", VBool false)]
           [("completed", VBool false)]
           ltac:(discriminate) eq_refl eq_refl eq_refl eq_refl eq_refl).
Defined.

Lemma toggle_thrice_witness :
  let w := one_task_world 1%positive (sample_task [[("title", VStr "call")]]) in
  let toggle w :=
    snd (toggleSubtaskCompletion sample_url find_first no_markup store_up "t1" 0 w) in
  let update w := snd (updateSubtaskState store_up 1%positive 0 w) in
  heap (toggle (toggle (toggle w))) = heap (toggle w)
  /\ heap (update (update (update w))) = heap (update w).
Proof.
  exact (toggle_thrice sample_url find_first no_markup store_up "t1" 0
           (one_task_world 1%positive (sample_task [[("title", VStr "call")]]))
           1%positive (sample_task [[("title", VStr "call")]])
           [[("title", VStr "call")]] [("title", VStr "call")]
           eq_refl eq_refl eq_refl eq_refl).
Defined.

Lemma toggle_changes_count_by_one_witness :
  (exists subtasks',
      (heap (snd (toggleSubtaskCompletion sample_url find_first no_markup store_up
                    "t1" 0 two_open))
         !! 1%positive ≫= task_subtasks)
      = Some subtasks'
      /\ count_completed subtasks' = 0 + 1)
  /\ (exists subtasks',
        (heap (snd (updateSubtaskState store_up 1%positive 0 two_open)) !! 1%positive
           ≫= task_subtasks)
        = Some subtasks'
        /\ count_completed subtasks' = 0 + 1).
Proof.
  exact (toggle_changes_count_by_one sample_url find_first no_markup store_up
           "t1" 0 two_open 1%positive (sample_task (subtasks_of 2 false))
           (subtasks_of 2 false) [("completed", VBool false)]
           eq_refl eq_refl eq_refl eq_refl).
Defined.

Lemma toggleSubtaskCompletion_width_witness :
  exists n : Z,
    0 <= n <= 100
    /\ container_of "t1"
         (snd (toggleSubtaskCompletion sample_url find_first no_markup store_up
                 "t1" 1 (on_sample_board two_open)))
       ≫= container_fill
       = Some {| fill_width := [Hole (VNum (Number.of_Z n)); Lit "%"];
                 fill_backgroundColor :=
                   if decide (n = 0) then "lightgray" else "blue" |}.
Proof.
  exact (toggleSubtaskCompletion_width sample_url find_first no_markup
           store_up "t1" 1 (on_sample_board two_open) 1%positive
           (sample_task (subtasks_of 2 false)) (subtasks_of 2 false)
           [("completed", VBool false)] sample_container
           {| fill_width := []; fill_backgroundColor := "" |} {| res_status := 200 |}
           eq_refl eq_refl eq_refl eq_refl eq_refl eq_refl eq_refl eq_refl).
Defined.
